(** * EasyDataCharts: the subplot grid of [MplCanvas] and its renderers

    A shallow embedding of [src/MplCanvas.py].  Python objects that the
    code mutates by reference (the figure's axes, the canvas itself) are
    threaded explicitly through a state-and-exception monad; a raised
    exception keeps every mutation made before it, as in Python. *)

From Stdlib Require Import ZArith Lia Ascii.
From stdpp Require Import base numbers list strings.

Local Open Scope Z_scope.

(** ** Exceptions and the two monads *)

(** The built-in exceptions the modelled code can raise.  [KeyError] is
    what a dictionary or a data frame raises for an unknown key (the
    specification calls it NotFoundError); [TypeError] is what a call
    with a missing argument raises.  [DanglingRef] does not exist
    in Python: axes are referred to by their index in the figure, and it
    marks an index that names no axes (never raised on a canvas made by
    the methods, see [no_dangling_ref]). *)
Inductive exn : Set :=
| IndexError
| KeyError
| AttributeError
| ZeroDivisionError
| ValueError
| TypeError
| DanglingRef.

Inductive result (A : Type) : Type :=
| Ok (a : A)
| Raise (e : exn).
Arguments Ok {A} a.
Arguments Raise {A} e.

#[global] Instance result_ret : MRet result := λ A a, Ok a.
#[global] Instance result_bind : MBind result := λ A B f r,
  match r with
  | Ok a => f a
  | Raise e => Raise e
  end.

(** A computation over a mutable object of type [S]. *)
Definition M (S A : Type) : Type := S → result A * S.

#[global] Instance M_ret {S} : MRet (M S) := λ A a s, (Ok a, s).
#[global] Instance M_bind {S} : MBind (M S) := λ A B f m s,
  match m s with
  | (Ok a, s') => f a s'
  | (Raise e, s') => (Raise e, s')
  end.

Definition lift {S A} (r : result A) : M S A := λ s, (r, s).
Definition raise {S A} (e : exn) : M S A := λ s, (Raise e, s).
Definition gets {S A} (f : S → A) : M S A := λ s, (Ok (f s), s).
Definition modify {S} (f : S → S) : M S unit := λ s, (Ok tt, f s).

Fixpoint mapM {A B} (f : A → result B) (l : list A) : result (list B) :=
  match l with
  | [] => Ok []
  | a :: l' => b ← f a; bs ← mapM f l'; Ok (b :: bs)
  end.

(** [for a in l: body a] *)
Fixpoint forM_ {S A} (l : list A) (body : A → M S unit) : M S unit :=
  match l with
  | [] => mret tt
  | a :: l' => body a;; forM_ l' body
  end.

(** ** Python sequences *)

Definition len {A} (l : list A) : Z := Z.of_nat (length l).

(** [l[i]] for an integer [i]: a negative index counts from the end, an
    index outside the sequence raises [IndexError]. *)
Definition getitem {A} (l : list A) (i : Z) : result A :=
  let j := if i <? 0 then i + len l else i in
  if (0 <=? j) && (j <? len l) then
    match l !! Z.to_nat j with
    | Some a => Ok a
    | None => Raise IndexError
    end
  else Raise IndexError.

(** [range(start, stop, step)] for a positive [step]. *)
Definition range (start stop step : Z) : list Z :=
  map (λ k, start + step * Z.of_nat k)
      (seq 0 (Z.to_nat ((stop - start + step - 1) `div` step))).

(** [a // b] and [divmod(a, b)] on integers. *)
Definition floordiv (a b : Z) : result Z :=
  if b =? 0 then Raise ZeroDivisionError else Ok (a `div` b).

Definition divmod (a b : Z) : result (Z * Z) :=
  if b =? 0 then Raise ZeroDivisionError else Ok (a `div` b, a `mod` b).

(** ** Tables *)

(** A data frame: its columns in order, each a label and its cells.  The
    code never computes with a cell; cells stand for the values as read,
    and their conversion to floating point by the plotting library is no
    part of the model. *)
Abbreviation Column := (string * list Z)%type.
Abbreviation DataFrame := (list Column).

(** [df.columns] *)
Definition columns (df : DataFrame) : list string := map fst df.

(** The columns labelled [name], in order. *)
Definition df_select (df : DataFrame) (name : string) : list (list Z) :=
  map snd (filter (λ c, fst c = name) df).

(** [df[name]]: the column labelled [name] (every such column when the
    label is repeated), [KeyError] when there is none. *)
Definition df_getitem (df : DataFrame) (name : string) : result (list (list Z)) :=
  match df_select df name with
  | [] => Raise KeyError
  | cols => Ok cols
  end.

(** ** Grid specifications *)

Record GridSpec : Set := mkGridSpec { nrows : Z; ncols : Z }.

(** [gridspec.GridSpec(nrows, ncols)] *)
Definition GridSpec_new (nr nc : Z) : result GridSpec :=
  if (nr <=? 0) || (nc <=? 0) then Raise ValueError else Ok (mkGridSpec nr nc).

(** A cell of a grid: the grid and the flat, row-major cell number. *)
Record SubplotSpec : Set := mkSubplotSpec { ss_gs : GridSpec; num1 : Z }.

Definition normalize (key size : Z) : result Z :=
  let k := if key <? 0 then key + size else key in
  if (0 <=? k) && (k <? size) then Ok k else Raise IndexError.

(** [gs[key]] *)
Definition GridSpec_getitem (g : GridSpec) (key : Z) : result SubplotSpec :=
  k ← normalize key (nrows g * ncols g); Ok (mkSubplotSpec g k).

(** [gs[row, col]] *)
Definition GridSpec_getitem2 (g : GridSpec) (row col : Z) : result SubplotSpec :=
  r ← normalize row (nrows g);
  c ← normalize col (ncols g);
  Ok (mkSubplotSpec g (r * ncols g + c)).

(** The grid position [(row, col)] of a cell. *)
Definition position (ss : SubplotSpec) : Z * Z :=
  (num1 ss `div` ncols (ss_gs ss), num1 ss `mod` ncols (ss_gs ss)).

(** ** Axes *)

(** [LinePlot] is drawn by [ax.plot(..., marker='o')], [ScatterPlot] by
    [ax.scatter(..., alpha=0.7)]. *)
Inductive PlotKind : Set := LinePlot | ScatterPlot.

Record Artist : Set := mkArtist {
  kind : PlotKind;
  xdata : list (list Z);
  ydata : list (list Z);
  label : string
}.

Record Axes : Set := mkAxes {
  subplotspec : SubplotSpec;
  artists : list Artist;
  title : string;
  xlabel : string;
  ylabel : string;
  legend : option (list string);
  grid : bool;
  ax_draws : nat
}.

Definition new_axes (ss : SubplotSpec) : Axes :=
  mkAxes ss [] "" "" "" None false 0.

Definition add_artist (a : Artist) (ax : Axes) : Axes :=
  mkAxes (subplotspec ax) (artists ax ++ [a]) (title ax) (xlabel ax) (ylabel ax)
         (legend ax) (grid ax) (ax_draws ax).

Definition add_artists (l : list Artist) (ax : Axes) : Axes :=
  mkAxes (subplotspec ax) (artists ax ++ l) (title ax) (xlabel ax) (ylabel ax)
         (legend ax) (grid ax) (ax_draws ax).

(** The columns [ax.plot(x, y)] draws against each other, one line each.
    [x] and [y] are what [df[name]] gave: one column, or the several
    columns of a repeated label.  One column on a side goes with every
    column of the other side; two frames go column by column.  (For two
    frames of different widths, which takes a table with two repeated
    labels, matplotlib raises [ValueError]; here they go column by column
    up to the narrower.  The statements that depend on it take the labels
    to be distinct.) *)
Definition line_data (x y : list (list Z)) : list (list Z * list Z) :=
  match x, y with
  | [xc], _ => map (λ yc, (xc, yc)) y
  | _, [yc] => map (λ xc, (xc, yc)) x
  | _, _ => zip x y
  end.

(** [ax.plot(x, y, label=lbl, marker='o')]: every line drawn carries the
    label. *)
Definition ax_plot (x y : list (list Z)) (lbl : string) : M Axes unit :=
  modify (add_artists (map (λ p, mkArtist LinePlot [p.1] [p.2] lbl) (line_data x y))).

(** [ax.scatter(x, y, label=lbl, alpha=0.7)]: one collection of markers.
    (matplotlib flattens [x] and [y] and raises [ValueError] when their
    sizes differ, which takes a repeated label; see [line_data].) *)
Definition ax_scatter (x y : list (list Z)) (lbl : string) : M Axes unit :=
  modify (add_artist (mkArtist ScatterPlot x y lbl)).

Definition set_subplotspec (ss : SubplotSpec) (ax : Axes) : Axes :=
  mkAxes ss (artists ax) (title ax) (xlabel ax) (ylabel ax) (legend ax) (grid ax)
         (ax_draws ax).

(** [ax.cla()] *)
Definition cla : M Axes unit :=
  modify (λ ax, mkAxes (subplotspec ax) [] "" "" "" None false (ax_draws ax)).

Definition set_title (s : string) : M Axes unit :=
  modify (λ ax, mkAxes (subplotspec ax) (artists ax) s (xlabel ax) (ylabel ax)
                       (legend ax) (grid ax) (ax_draws ax)).

Definition set_xlabel (s : string) : M Axes unit :=
  modify (λ ax, mkAxes (subplotspec ax) (artists ax) (title ax) s (ylabel ax)
                       (legend ax) (grid ax) (ax_draws ax)).

Definition set_ylabel (s : string) : M Axes unit :=
  modify (λ ax, mkAxes (subplotspec ax) (artists ax) (title ax) (xlabel ax) s
                       (legend ax) (grid ax) (ax_draws ax)).

(** Whether a legend shows a label: not when it is empty or starts with
    an underscore. *)
Definition in_legend (lbl : string) : bool :=
  match lbl with
  | EmptyString => false
  | String c _ => negb (Ascii.eqb c "_"%char)
  end.

(** [ax.legend()]: a legend with an entry for every artist drawn so far
    whose label it shows. *)
Definition ax_legend : M Axes unit :=
  modify (λ ax, mkAxes (subplotspec ax) (artists ax) (title ax) (xlabel ax) (ylabel ax)
                       (Some (List.filter in_legend (map label (artists ax))))
                       (grid ax) (ax_draws ax)).

Definition ax_grid (b : bool) : M Axes unit :=
  modify (λ ax, mkAxes (subplotspec ax) (artists ax) (title ax) (xlabel ax) (ylabel ax)
                       (legend ax) b (ax_draws ax)).

(** [ax.draw()]: [Axes.draw] takes the renderer as an argument and the
    code passes none, so the call raises [TypeError] and draws nothing. *)
Definition ax_draw : M Axes unit := raise TypeError.

(** ** Rendering *)

Definition detect_adjacent_pairs (df : DataFrame) : result (list (string * string)) :=
  mapM (λ i, a ← getitem (columns df) i;
             b ← getitem (columns df) (i + 1);
             Ok (a, b))
       (range 0 (len (columns df)) 2).

(** [f'{x} vs {y}'] *)
Definition vs (x y : string) : string := x +:+ " vs " +:+ y.

Definition plot_paired (data : DataFrame) (type : Z) : M Axes unit :=
  pairs ← lift (detect_adjacent_pairs data);
  forM_ pairs (λ p,
    if type =? 0 then
      xs ← lift (df_getitem data p.1);
      ys ← lift (df_getitem data p.2);
      ax_plot xs ys (vs p.1 p.2)
    else if type =? 1 then
      xs ← lift (df_getitem data p.1);
      ys ← lift (df_getitem data p.2);
      ax_scatter xs ys (vs p.1 p.2)
    else mret tt).

Definition plot_unpaired (data : DataFrame) (type : Z) : M Axes unit :=
  x_col ← lift (getitem (columns data) 0);
  x ← lift (df_getitem data x_col);
  forM_ (drop 1 (columns data)) (λ y,
    if type =? 0 then
      ys ← lift (df_getitem data y);
      ax_plot x ys (vs x_col y)
    else if type =? 1 then
      ys ← lift (df_getitem data y);
      ax_scatter x ys (vs x_col y)
    else mret tt).

Definition format_plot (name : string) : M Axes unit :=
  set_title name;;
  set_xlabel "X-axis";;
  set_ylabel "Y-axis";;
  ax_legend;;
  ax_grid true.

(** ** The canvas *)

(** [ax] refers to an axes of the figure by its index in [fig_axes]. *)
Record DataHolder : Set := mkDataHolder {
  ax : nat;
  data : DataFrame;
  paired : bool;
  type : Z
}.

(** [fig_axes] is the figure's list of axes in creation order (axes are
    never removed), [fig_tight] counts [fig.tight_layout()] calls and
    [draws] the canvas redraws.  [plots] is a Python dictionary: an
    association list in insertion order, one entry per key. *)
Record MplCanvas : Set := mkCanvas {
  fig_axes : list Axes;
  fig_tight : nat;
  plots : list (string * DataHolder);
  gs : GridSpec;
  MAX_COL : Z;
  draws : nat
}.

Definition set_fig_axes (l : list Axes) (c : MplCanvas) : MplCanvas :=
  mkCanvas l (fig_tight c) (plots c) (gs c) (MAX_COL c) (draws c).

Definition set_plots (d : list (string * DataHolder)) (c : MplCanvas) : MplCanvas :=
  mkCanvas (fig_axes c) (fig_tight c) d (gs c) (MAX_COL c) (draws c).

Definition set_gs (g : GridSpec) (c : MplCanvas) : MplCanvas :=
  mkCanvas (fig_axes c) (fig_tight c) (plots c) g (MAX_COL c) (draws c).

Definition tight_layout (c : MplCanvas) : MplCanvas :=
  mkCanvas (fig_axes c) (S (fig_tight c)) (plots c) (gs c) (MAX_COL c) (draws c).

Definition draw (c : MplCanvas) : MplCanvas :=
  mkCanvas (fig_axes c) (fig_tight c) (plots c) (gs c) (MAX_COL c) (S (draws c)).

(** [MplCanvas.__init__] *)
Definition init : MplCanvas :=
  mkCanvas [] 0 [] (mkGridSpec 1 1) 2 0.

(** [d[k]] and [d[k] = v] on a dictionary. *)
Fixpoint dict_get {V} (k : string) (d : list (string * V)) : option V :=
  match d with
  | [] => None
  | (k', v) :: d' => if decide (k' = k) then Some v else dict_get k d'
  end.

Fixpoint dict_set {V} (k : string) (v : V) (d : list (string * V)) : list (string * V) :=
  match d with
  | [] => [(k, v)]
  | (k', v') :: d' =>
      if decide (k' = k) then (k, v) :: d' else (k', v') :: dict_set k v d'
  end.

Definition dict_getitem {V} (k : string) (d : list (string * V)) : result V :=
  match dict_get k d with
  | Some v => Ok v
  | None => Raise KeyError
  end.

(** [self.plots[name]] *)
Definition plots_getitem (name : string) : M MplCanvas DataHolder :=
  λ c, (dict_getitem name (plots c), c).

(** Runs a computation on the axes that [ref] refers to. *)
Definition on_ax {A} (ref : nat) (m : M Axes A) : M MplCanvas A := λ c,
  match fig_axes c !! ref with
  | Some a => let (r, a') := m a in (r, set_fig_axes (<[ref := a']> (fig_axes c)) c)
  | None => (Raise DanglingRef, c)
  end.

(** [self.fig.add_subplot(ss)]: a new, blank axes at the end of the
    figure's list. *)
Definition add_subplot (ss : SubplotSpec) : M MplCanvas nat := λ c,
  (Ok (length (fig_axes c)), set_fig_axes (fig_axes c ++ [new_axes ss]) c).

(** [self.fig.get_axes()] *)
Definition get_axes : M MplCanvas (list nat) :=
  gets (λ c, seq 0 (length (fig_axes c))).

(** [enumerate(l)] *)
Definition enumerate {A} (l : list A) : list (Z * A) :=
  imap (λ i a, (Z.of_nat i, a)) l.

Definition get_ax (name : string) : M MplCanvas nat :=
  h ← plots_getitem name; mret (ax h).

Definition adjust_figure : M MplCanvas (GridSpec * nat) :=
  existing_axes ← get_axes;
  let total_plots := len existing_axes + 1 in
  max_col ← gets MAX_COL;
  let ncols := Z.min max_col total_plots in
  nrows ← lift (floordiv (total_plots + ncols - 1) ncols);
  new_gs ← lift (GridSpec_new nrows ncols);
  forM_ (enumerate existing_axes) (λ ia,
    rc ← lift (divmod ia.1 ncols);
    ss ← lift (GridSpec_getitem2 new_gs rc.1 rc.2);
    on_ax ia.2 (modify (set_subplotspec ss)));;
  ss ← lift (GridSpec_getitem new_gs (len existing_axes));
  new_ax ← add_subplot ss;
  modify (set_gs new_gs);;
  mret (new_gs, new_ax).

Definition add_plot (plot_name : string) (data : DataFrame) (paired : bool) (type : Z)
  : M MplCanvas unit :=
  g ← gets gs;
  n ← gets (λ c, len (plots c));
  new_ax ← (if ncols g * nrows g >=? n + 1 then
              ss ← lift (GridSpec_getitem g n);
              add_subplot ss
            else
              r ← adjust_figure;
              modify (set_gs r.1);;
              mret r.2);
  on_ax new_ax (if paired then plot_paired data type else plot_unpaired data type);;
  on_ax new_ax (format_plot plot_name);;
  modify tight_layout;;
  modify draw;;
  modify (λ c, set_plots (dict_set plot_name (mkDataHolder new_ax data paired type) (plots c)) c).

(** The unpaired branch names [self.__plot_series], an attribute the
    class does not define: evaluating it raises [AttributeError]. *)
Definition update_plot (plot_name : string) (data : DataFrame) : M MplCanvas unit :=
  h ← plots_getitem plot_name;
  on_ax (ax h) cla;;
  h ← plots_getitem plot_name;
  let ax := ax h in
  h ← plots_getitem plot_name;
  let type := type h in
  h ← plots_getitem plot_name;
  (if paired h then on_ax ax (plot_paired data type) else raise AttributeError);;
  on_ax ax (format_plot plot_name);;
  on_ax ax ax_draw.

(** ** Sequences of calls *)

Record Call : Set := mkCall {
  c_name : string;
  c_data : DataFrame;
  c_paired : bool;
  c_type : Z
}.

(** Calls [add_plot] for each element in turn; a call that raises does not
    stop the next one (the exception goes back to the event loop). *)
Fixpoint add_plots (calls : list Call) (c : MplCanvas) : list (result unit) * MplCanvas :=
  match calls with
  | [] => ([], c)
  | k :: calls' =>
      let (r, c') := add_plot (c_name k) (c_data k) (c_paired k) (c_type k) c in
      let (rs, c'') := add_plots calls' c' in
      (r :: rs, c'')
  end.

(** ** What the specification says of the renderers *)

(** Columns taken two at a time in order, a trailing single column left
    out (the specification's paired mode). *)
Fixpoint pairs_of {A} (l : list A) : list (A * A) :=
  match l with
  | a :: b :: l' => (a, b) :: pairs_of l'
  | _ => []
  end.

Definition kind_of (type : Z) : PlotKind :=
  if type =? 0 then LinePlot else ScatterPlot.

(** What one round of a renderer's loop draws for the data [x], [y] under
    the label [lbl]: the lines of [ax.plot] for style 0, the one
    collection of [ax.scatter] for style 1, nothing for any other
    value. *)
Definition drawn_by (type : Z) (x y : list (list Z)) (lbl : string) : list Artist :=
  if type =? 0 then map (λ p, mkArtist LinePlot [p.1] [p.2] lbl) (line_data x y)
  else if type =? 1 then [mkArtist ScatterPlot x y lbl]
  else [].

(** What is drawn for a list of column pairs, in order. *)
Definition series_of (data : DataFrame) (type : Z) (ps : list (string * string))
  : list Artist :=
  flat_map (λ p, drawn_by type (df_select data p.1) (df_select data p.2) (vs p.1 p.2)) ps.

(** ** The outcome of a call, in the terms of the statements *)

(** Whether the next [add_plot] finds the grid full. *)
Definition grows (c : MplCanvas) : bool :=
  negb (ncols (gs c) * nrows (gs c) >=? len (plots c) + 1).

(** The grid [__adjust_figure] builds. *)
Definition grown_gs (c : MplCanvas) : GridSpec :=
  let total_plots := len (fig_axes c) + 1 in
  let nc := Z.min (MAX_COL c) total_plots in
  mkGridSpec ((total_plots + nc - 1) `div` nc) nc.

(** Every axes moved to the cell of its index in the grid [g]. *)
Definition moved (g : GridSpec) (axs : list Axes) : list Axes :=
  imap (λ i a, set_subplotspec (mkSubplotSpec g (Z.of_nat i)) a) axs.

Definition next_gs (c : MplCanvas) : GridSpec :=
  if grows c then grown_gs c else gs c.

(** The axes already on the figure, as the layout step leaves them. *)
Definition next_axes (c : MplCanvas) : list Axes :=
  if grows c then moved (grown_gs c) (fig_axes c) else fig_axes c.

(** The cell given to the new axes. *)
Definition next_spec (c : MplCanvas) : SubplotSpec :=
  if grows c then mkSubplotSpec (grown_gs c) (len (fig_axes c))
  else mkSubplotSpec (gs c) (len (plots c)).

Definition formatted (name : string) (a : Axes) : Axes :=
  mkAxes (subplotspec a) (artists a) name "X-axis" "Y-axis"
         (Some (List.filter in_legend (map label (artists a)))) true (ax_draws a).

(** Which tables each mode renders without raising. *)
Definition renderable (paired : bool) (data : DataFrame) : bool :=
  if paired then Nat.even (length data) else negb (Nat.eqb (length data) 0).

(** The series a renderable table gets in each mode. *)
Definition rendered (paired : bool) (data : DataFrame) (type : Z) : list Artist :=
  if paired then series_of data type (pairs_of (columns data))
  else match columns data with
       | [] => []
       | x_col :: rest => series_of data type (map (λ y, (x_col, y)) rest)
       end.

Definition cleared (a : Axes) : Axes :=
  mkAxes (subplotspec a) [] "" "" "" None false (ax_draws a).

(** What C4 asks of a call: that it raises and leaves the canvas as it
    was. *)
Definition rejected name (data : DataFrame) (paired : bool) (type : Z)
    (c : MplCanvas) : Prop :=
  ∃ e, add_plot name data paired type c = (Raise e, c).

(** What C7 asks of a call that raises: no region added or moved, no new
    grid. *)
Definition atomic (r : result unit) (c c' : MplCanvas) : Prop :=
  match r with
  | Ok _ => True
  | Raise _ => fig_axes c' = fig_axes c ∧ gs c' = gs c
  end.

(** The cell of the region a slot is bound to. *)
Definition region_of (name : string) (c : MplCanvas) : option SubplotSpec :=
  h ← dict_get name (plots c);
  a ← fig_axes c !! ax h;
  Some (subplotspec a).

(** The grid after [n] plots. *)
Definition grid_for (n : nat) : GridSpec :=
  match n with
  | O => mkGridSpec 1 1
  | _ => let nc := Z.min 2 (Z.of_nat n) in
         mkGridSpec ((Z.of_nat n + nc - 1) `div` nc) nc
  end.

(** The canvas after one returning [add_plot] call for each of [names]:
    the grid fits their number, the i-th region sits in cell [i] of that
    grid, and the i-th slot is bound to the i-th region. *)
Record Inv (names : list string) (c : MplCanvas) : Prop := mkInv {
  inv_max : MAX_COL c = 2;
  inv_gs : gs c = grid_for (length names);
  inv_specs :
    map subplotspec (fig_axes c)
    = map (λ i, mkSubplotSpec (gs c) (Z.of_nat i)) (seq 0 (length names));
  inv_keys : map fst (plots c) = names;
  inv_refs : map (λ p, ax p.2) (plots c) = seq 0 (length names)
}.

(** Regions laid out row-major in insertion order, one per slot, none
    overlapping, within the column limit (C6's guarantee). *)
Definition laid_row_major (c : MplCanvas) : Prop :=
  length (fig_axes c) = length (plots c) ∧
  (∀ (i : nat) name h,
     plots c !! i = Some (name, h) →
     ∃ a, fig_axes c !! ax h = Some a ∧
          ss_gs (subplotspec a) = gs c ∧
          position (subplotspec a)
            = (Z.of_nat i `div` ncols (gs c), Z.of_nat i `mod` ncols (gs c)) ∧
          0 ≤ Z.of_nat i `div` ncols (gs c) < nrows (gs c)) ∧
  NoDup (map (λ p, ax p.2) (plots c)) ∧
  NoDup (map (λ a, position (subplotspec a)) (fig_axes c)) ∧
  0 < ncols (gs c) ≤ MAX_COL c.

(** Every slot refers to an axes of the figure, and the column limit is
    positive. *)
Definition wf (c : MplCanvas) : Prop :=
  0 < MAX_COL c ∧
  ∀ name h, dict_get name (plots c) = Some h → (ax h < length (fig_axes c))%nat.

(** What a method may change without breaking [wf]: it keeps the slots
    and the column limit, and the figure keeps its number of axes. *)
Definition frame (c c' : MplCanvas) : Prop :=
  plots c' = plots c ∧ MAX_COL c' = MAX_COL c ∧
  length (fig_axes c') = length (fig_axes c).

Definition framed {A} (m : M MplCanvas A) : Prop :=
  ∀ c r c', m c = (r, c') → frame c c'.

(** ** The window ([src/Interface.py]) *)

(** [MainWindow.__parse_data] on the window's canvas.  [df] is the table
    [pd.read_csv] returned for the chosen file; [title] is the answer of
    [QInputDialog.getText] and [paired_answer], [type_answer] those of the
    two [QInputDialog.getItem] dialogs, each a text and the [ok] flag.
    Only the first [ok] is looked at. *)
Definition parse_data (df : DataFrame) (title paired_answer type_answer : string * bool)
  : M MplCanvas unit :=
  let plot_name := title.1 in
  let ok := title.2 in
  if negb ok then mret tt
  else
    let paired := bool_decide (paired_answer.1 = "Yes") in
    let plot_type := if bool_decide (type_answer.1 = "Straight Line") then 0 else 1 in
    add_plot plot_name df paired plot_type.

(** [MainWindow.new_plot]: [file_name] is what the file dialog returned,
    the empty string when it was dismissed. *)
Definition new_plot (file_name : string) (df : DataFrame)
    (title paired_answer type_answer : string * bool) : M MplCanvas unit :=
  if bool_decide (file_name = "") then mret tt
  else parse_data df title paired_answer type_answer.

(** One press of the "add plot" button with the user's answers. *)
Record Click : Set := mkClick {
  k_file : string;
  k_df : DataFrame;
  k_title : string * bool;
  k_paired : string * bool;
  k_type : string * bool
}.

(** The canvas after a series of presses (an exception goes back to the
    event loop and the window stays up). *)
Definition presses (ks : list Click) (c : MplCanvas) : MplCanvas :=
  foldl (λ c k, (new_plot (k_file k) (k_df k) (k_title k) (k_paired k) (k_type k) c).2)
        c ks.

(** ** Sequences of method calls *)

Inductive Op : Set :=
| OpAdd (name : string) (data : DataFrame) (paired : bool) (type : Z)
| OpUpdate (name : string) (data : DataFrame)
| OpGet (name : string).

(** The canvas after a method call, whether it returned or raised. *)
Definition run_op (o : Op) (c : MplCanvas) : MplCanvas :=
  match o with
  | OpAdd name data paired type => (add_plot name data paired type c).2
  | OpUpdate name data => (update_plot name data c).2
  | OpGet name => (get_ax name c).2
  end.

Definition run_ops (ops : list Op) (c : MplCanvas) : MplCanvas :=
  foldl (λ c o, run_op o c) c ops.

Definition is_add (o : Op) : bool :=
  match o with
  | OpAdd _ _ _ _ => true
  | _ => false
  end.

(** How many of the calls are [add_plot] calls. *)
Definition count_adds (ops : list Op) : nat := length (List.filter is_add ops).

(** The number of cells of the current grid. *)
Definition capacity (c : MplCanvas) : Z := nrows (gs c) * ncols (gs c).

(** What every canvas made by the methods satisfies. *)
Definition sound (c : MplCanvas) : Prop :=
  MAX_COL c = 2 ∧
  0 < ncols (gs c) ≤ 2 ∧ 0 < nrows (gs c) ∧
  (length (plots c) ≤ length (fig_axes c))%nat ∧
  len (plots c) ≤ capacity c ∧
  ∀ name h, dict_get name (plots c) = Some h → (ax h < length (fig_axes c))%nat.

(** [l] with its pairs written out again. *)
Definition unpair {A} (l : list (A * A)) : list A :=
  flat_map (λ p, [p.1; p.2]) l.

(** ** Monad steps *)

Lemma bind_ok {S A B} (m : M S A) (f : A → M S B) s a s' :
  m s = (Ok a, s') → (m ≫= f) s = f a s'.
Proof. intros H. unfold mbind, M_bind. by rewrite H. Qed.

Lemma bind_raise {S A B} (m : M S A) (f : A → M S B) s e s' :
  m s = (Raise e, s') → (m ≫= f) s = (Raise e, s').
Proof. intros H. unfold mbind, M_bind. by rewrite H. Qed.

Lemma forM__app {S A} (l1 l2 : list A) (body : A → M S unit) s :
  forM_ (l1 ++ l2) body s = (forM_ l1 body;; forM_ l2 body) s.
Proof.
  revert s. induction l1 as [|a l1 IH]; intros s; simpl.
  - done.
  - unfold mbind, M_bind in *. destruct (body a s) as [[[]|e] s1]; [|done].
    by rewrite IH.
Qed.

Lemma forM__skip {S A} (l : list A) (body : A → M S unit) s :
  (∀ a s, a ∈ l → body a s = (Ok tt, s)) → forM_ l body s = (Ok tt, s).
Proof.
  induction l as [|a l IH]; intros H; simpl; [done|].
  erewrite bind_ok by (apply H; left). apply IH.
  intros b t Hb. apply H. by right.
Qed.

Lemma mapM_Ok_inv {A B} (f : A → result B) l bs :
  mapM f l = Ok bs → Forall2 (λ a b, f a = Ok b) l bs.
Proof.
  revert bs. induction l as [|a l IH]; intros bs; simpl.
  - intros [= <-]. constructor.
  - unfold mbind, result_bind. destruct (f a) as [b|] eqn:Hb; [|done].
    destruct (mapM f l) as [bs'|]; [|done]. intros [= <-].
    constructor; [done|]. by apply IH.
Qed.

(** ** Sequences *)

Lemma len_nonneg {A} (l : list A) : 0 ≤ len l.
Proof. unfold len. lia. Qed.

Lemma getitem_Some {A} (l : list A) (i : nat) a :
  l !! i = Some a → getitem l (Z.of_nat i) = Ok a.
Proof.
  intros H. pose proof (lookup_lt_Some _ _ _ H) as Hlt.
  unfold getitem, len.
  destruct (Z.ltb_spec (Z.of_nat i) 0); [lia|].
  destruct (Z.leb_spec 0 (Z.of_nat i)); [|lia].
  destruct (Z.ltb_spec (Z.of_nat i) (Z.of_nat (length l))); [|lia].
  simpl. by rewrite Nat2Z.id, H.
Qed.

Lemma getitem_ge {A} (l : list A) (i : Z) :
  len l ≤ i → getitem l i = Raise IndexError.
Proof.
  intros H. pose proof (len_nonneg l). unfold getitem.
  destruct (Z.ltb_spec i 0); [lia|].
  destruct (Z.ltb_spec i (len l)); [lia|].
  by rewrite andb_false_r.
Qed.

Lemma getitem_Ok_elem {A} (l : list A) i a : getitem l i = Ok a → a ∈ l.
Proof.
  unfold getitem. destruct (_ && _); [|done].
  destruct (l !! _) eqn:H; [|done]. intros [= <-].
  by eapply list_elem_of_lookup_2.
Qed.

Lemma getitem_error {A} (l : list A) i e : getitem l i = Raise e → e = IndexError.
Proof.
  unfold getitem. destruct (_ && _); [|congruence].
  destruct (l !! _); congruence.
Qed.

(** ** Data frames *)

Lemma df_select_cons c df name :
  df_select (c :: df) name =
  if decide (c.1 = name) then c.2 :: df_select df name else df_select df name.
Proof.
  unfold df_select. rewrite filter_cons. by destruct (decide (c.1 = name)).
Qed.

Lemma df_getitem_columns df name :
  name ∈ columns df → df_getitem df name = Ok (df_select df name).
Proof.
  unfold df_getitem. intros H.
  destruct (df_select df name) eqn:E; [|done]. exfalso.
  induction df as [|c df IH]; [by apply elem_of_nil in H|].
  rewrite df_select_cons in E. simpl in H.
  destruct (decide (c.1 = name)); [done|].
  apply elem_of_cons in H as [H|H]; [congruence|by apply IH].
Qed.

(** With distinct labels, [df[name]] is the one column of that label. *)
Lemma df_select_unique (df : DataFrame) (i : nat) name cells :
  NoDup (columns df) → df !! i = Some (name, cells) → df_select df name = [cells].
Proof.
  revert i. induction df as [|c df IH]; intros i Hnd Hi; [done|].
  simpl in Hnd. apply NoDup_cons in Hnd as [Hnotin Hnd].
  rewrite df_select_cons. destruct i as [|i]; simpl in Hi.
  - injection Hi as ->. simpl. rewrite decide_True by done. f_equal.
    unfold df_select. clear IH Hnd. induction df as [|d df IH]; [done|].
    simpl in Hnotin. apply not_elem_of_cons in Hnotin as [Hne Hnotin].
    rewrite filter_cons, decide_False by done. by apply IH.
  - rewrite decide_False; [by eapply IH|].
    intros Heq. apply Hnotin. rewrite Heq.
    change name with ((name, cells).1). apply list_elem_of_fmap_2.
    by eapply list_elem_of_lookup_2.
Qed.

(** ** The renderers, in closed form *)

Lemma add_artists_nil ax : add_artists [] ax = ax.
Proof. destruct ax. unfold add_artists. simpl. by rewrite app_nil_r. Qed.

Lemma add_artists_app l1 l2 ax :
  add_artists (l1 ++ l2) ax = add_artists l2 (add_artists l1 ax).
Proof. unfold add_artists. simpl. by rewrite app_assoc. Qed.

Lemma add_artists_cons a l ax :
  add_artists (a :: l) ax = add_artists l (add_artist a ax).
Proof. unfold add_artists, add_artist. simpl. by rewrite <- app_assoc. Qed.

Lemma flat_map_map {A B C} (f : A → B) (g : B → list C) (l : list A) :
  flat_map g (map f l) = flat_map (λ a, g (f a)) l.
Proof. induction l as [|a l IH]; simpl; [done|by rewrite IH]. Qed.

Lemma forM__artists {A} (l : list A) (body : A → M Axes unit)
    (g : A → list Artist) ax :
  (∀ a ax, a ∈ l → body a ax = (Ok tt, add_artists (g a) ax)) →
  forM_ l body ax = (Ok tt, add_artists (flat_map g l) ax).
Proof.
  revert ax. induction l as [|a l IH]; intros ax H; simpl.
  - by rewrite add_artists_nil.
  - erewrite bind_ok by (apply H; left).
    rewrite add_artists_app. apply IH. intros b ax' Hb. apply H. by right.
Qed.

(** The loop body shared by both renderers, for the pair [(x, y)]. *)
Lemma plot_one data type (x y : string) (xs : list (list Z)) ax :
  y ∈ columns data →
  (if type =? 0 then
     ys ← lift (df_getitem data y); ax_plot xs ys (vs x y)
   else if type =? 1 then
     ys ← lift (df_getitem data y); ax_scatter xs ys (vs x y)
   else mret tt) ax
  = (Ok tt, add_artists (drawn_by type xs (df_select data y) (vs x y)) ax).
Proof.
  intros Hy. unfold drawn_by.
  destruct (type =? 0) eqn:E0; [|destruct (type =? 1) eqn:E1].
  - by erewrite bind_ok by (unfold lift; by rewrite df_getitem_columns).
  - by erewrite bind_ok by (unfold lift; by rewrite df_getitem_columns).
  - by rewrite add_artists_nil.
Qed.

Lemma pairs_of_elem {A} (l : list A) x y : (x, y) ∈ pairs_of l → x ∈ l ∧ y ∈ l.
Proof.
  remember (length l) as n eqn:Hn. assert (Hle : (length l ≤ n)%nat) by lia.
  clear Hn. revert l Hle. induction n as [|n IH]; intros l Hle.
  - destruct l; [|simpl in Hle; lia]. intros H. by apply elem_of_nil in H.
  - destruct l as [|a [|b l']]; simpl; try (intros H; by apply elem_of_nil in H).
    intros [[= -> ->]|H]%elem_of_cons.
    + split; [left|right; left].
    + apply IH in H as [??]; [|simpl in Hle; lia]. split; by do 2 right.
Qed.

Lemma plot_paired_eq data type ax :
  plot_paired data type ax =
  match detect_adjacent_pairs data with
  | Ok ps => (Ok tt, add_artists (series_of data type ps) ax)
  | Raise e => (Raise e, ax)
  end.
Proof.
  unfold plot_paired.
  destruct (detect_adjacent_pairs data) as [ps|e] eqn:E;
    [|by erewrite bind_raise by done].
  erewrite bind_ok by done.
  assert (Hin : ∀ p, p ∈ ps → p.1 ∈ columns data ∧ p.2 ∈ columns data).
  { apply mapM_Ok_inv in E. intros p Hp.
    eapply Forall2_Forall_r with (Q := λ p, p.1 ∈ columns data ∧ p.2 ∈ columns data)
      in E; [by eapply Forall_forall in E|].
    apply Forall_forall. intros i _ [a b]. unfold mbind, result_bind.
    destruct (getitem _ i) as [a'|] eqn:Ha; [|done].
    destruct (getitem _ (i + 1)) as [b'|] eqn:Hb; [|done].
    intros [= -> ->]. split; by eapply getitem_Ok_elem. }
  unfold series_of. apply forM__artists. intros p ax' Hp.
  destruct (Hin p Hp) as [Hx Hy]. unfold drawn_by.
  destruct (type =? 0) eqn:E0; [|destruct (type =? 1) eqn:E1].
  - erewrite bind_ok by (unfold lift; by rewrite df_getitem_columns).
    by erewrite bind_ok by (unfold lift; by rewrite df_getitem_columns).
  - erewrite bind_ok by (unfold lift; by rewrite df_getitem_columns).
    by erewrite bind_ok by (unfold lift; by rewrite df_getitem_columns).
  - by rewrite add_artists_nil.
Qed.

Lemma plot_unpaired_eq data type ax :
  plot_unpaired data type ax =
  match columns data with
  | [] => (Raise IndexError, ax)
  | x_col :: rest =>
      (Ok tt, add_artists (series_of data type (map (λ y, (x_col, y)) rest)) ax)
  end.
Proof.
  unfold plot_unpaired. destruct (columns data) as [|x_col rest] eqn:E.
  - done.
  - assert (Hx : x_col ∈ columns data) by (rewrite E; left).
    erewrite bind_ok by done. simpl.
    erewrite bind_ok by (unfold lift; by rewrite df_getitem_columns).
    rewrite drop_0. unfold series_of. rewrite flat_map_map. cbn [fst snd].
    apply forM__artists. intros y ax' Hy.
    rewrite plot_one; [done|]. rewrite E. by right.
Qed.

(** ** Pairing adjacent columns *)

(** The comprehension of [detect_adjacent_pairs] from the [k]-th pair on,
    when the columns come out even. *)
Lemma pairs_from_even {A} (cols : list A) (m k : nat) :
  length cols = (2 * (k + m))%nat →
  mapM (λ i, a ← getitem cols i; b ← getitem cols (i + 1); Ok (a, b))
       (map (λ j, 0 + 2 * Z.of_nat j) (seq k m))
  = Ok (pairs_of (drop (2 * k) cols)).
Proof.
  revert k. induction m as [|m IH]; intros k Hlen.
  - rewrite drop_ge by lia. done.
  - destruct (lookup_lt_is_Some_2 cols (2 * k)) as [a Ha]; [lia|].
    destruct (lookup_lt_is_Some_2 cols (S (2 * k))) as [b Hb]; [lia|].
    rewrite (drop_S _ _ _ Ha), (drop_S _ _ _ Hb).
    replace (S (S (2 * k))) with (2 * S k)%nat by lia.
    cbn [seq map mapM pairs_of]. rewrite IH by lia.
    replace (0 + 2 * Z.of_nat k) with (Z.of_nat (2 * k)) by lia.
    replace (Z.of_nat (2 * k) + 1) with (Z.of_nat (S (2 * k))) by lia.
    by rewrite (getitem_Some _ _ _ Ha), (getitem_Some _ _ _ Hb).
Qed.

(** The same when one column is left over: the last round reads one
    past the end. *)
Lemma pairs_from_odd {A} (cols : list A) (m k : nat) :
  length cols = S (2 * (k + m)) →
  mapM (λ i, a ← getitem cols i; b ← getitem cols (i + 1); Ok (a, b))
       (map (λ j, 0 + 2 * Z.of_nat j) (seq k (S m)))
  = Raise IndexError.
Proof.
  revert k. induction m as [|m IH]; intros k Hlen.
  - simpl. destruct (lookup_lt_is_Some_2 cols (2 * k)) as [a Ha]; [lia|].
    replace (0 + 2 * Z.of_nat k) with (Z.of_nat (2 * k)) by lia.
    rewrite (getitem_Some _ _ _ Ha). simpl.
    rewrite getitem_ge; [done|]. unfold len. lia.
  - change (seq k (S (S m))) with (k :: seq (S k) (S m)).
    rewrite map_cons. cbn [mapM]. rewrite IH by lia.
    destruct (lookup_lt_is_Some_2 cols (2 * k)) as [a Ha]; [lia|].
    destruct (lookup_lt_is_Some_2 cols (S (2 * k))) as [b Hb]; [lia|].
    replace (0 + 2 * Z.of_nat k) with (Z.of_nat (2 * k)) by lia.
    replace (Z.of_nat (2 * k) + 1) with (Z.of_nat (S (2 * k))) by lia.
    by rewrite (getitem_Some _ _ _ Ha), (getitem_Some _ _ _ Hb).
Qed.

Lemma detect_adjacent_pairs_even (df : DataFrame) :
  Nat.even (length df) = true →
  detect_adjacent_pairs df = Ok (pairs_of (columns df)).
Proof.
  intros [q Hq]%Nat.even_spec. unfold detect_adjacent_pairs, range.
  assert (Hl : length (columns df) = (2 * (0 + q))%nat)
    by (unfold columns; rewrite length_map; lia).
  replace (Z.to_nat _) with q; [by rewrite (pairs_from_even _ q 0)|].
  unfold len. rewrite Hl. apply (inj Z.of_nat).
  rewrite Z2Nat.id by (apply Z.div_pos; lia).
  apply (Z.div_unique _ _ _ 1); lia.
Qed.

Lemma detect_adjacent_pairs_odd (df : DataFrame) :
  Nat.odd (length df) = true →
  detect_adjacent_pairs df = Raise IndexError.
Proof.
  intros [q Hq]%Nat.odd_spec. unfold detect_adjacent_pairs, range.
  assert (Hl : length (columns df) = S (2 * (0 + q)))
    by (unfold columns; rewrite length_map; lia).
  replace (Z.to_nat _) with (S q); [by rewrite (pairs_from_odd _ q 0)|].
  unfold len. rewrite Hl. apply (inj Z.of_nat).
  rewrite Z2Nat.id by (apply Z.div_pos; lia).
  apply (Z.div_unique _ _ _ 0); lia.
Qed.

Lemma length_pairs_of {A} (l : list A) : length (pairs_of l) = (length l / 2)%nat.
Proof.
  remember (length l) as n eqn:Hn. assert (Hle : (length l ≤ n)%nat) by lia.
  rewrite Hn. clear Hn. revert l Hle. induction n as [|n IH]; intros l Hle.
  - destruct l; [done|simpl in Hle; lia].
  - destruct l as [|a [|b l']]; [done..|]. simpl pairs_of. simpl length.
    rewrite IH by (simpl in Hle; lia).
    change (S (S (length l'))) with (1 * 2 + length l')%nat.
    rewrite Nat.div_add_l by lia. lia.
Qed.

(** The [k]-th pair is made of the columns [2k] and [2k+1]. *)
Lemma lookup_pairs_of {A} (l : list A) (k : nat) x y :
  l !! (2 * k)%nat = Some x → l !! S (2 * k) = Some y → pairs_of l !! k = Some (x, y).
Proof.
  revert l. induction k as [|k IH]; intros l Hx Hy.
  - destruct l as [|a [|b l']]; simpl in *; congruence.
  - destruct l as [|a [|b l']]; [done..|].
    simpl pairs_of. simpl. apply IH.
    + replace (2 * S k)%nat with (S (S (2 * k))) in Hx by lia. done.
    + replace (S (2 * S k))%nat with (S (S (S (2 * k)))) in Hy by lia. done.
Qed.

(** ** The layout step, in closed form *)

Lemma moved_snoc g axs a :
  moved g (axs ++ [a]) =
  moved g axs ++ [set_subplotspec (mkSubplotSpec g (len axs)) a].
Proof. unfold moved, len. rewrite imap_app. simpl. by rewrite Nat.add_0_r. Qed.

Lemma length_moved g axs : length (moved g axs) = length axs.
Proof. apply length_imap. Qed.

Lemma enumerate_snoc {A} (l : list A) a :
  enumerate (l ++ [a]) = enumerate l ++ [(len l, a)].
Proof. unfold enumerate, len. rewrite imap_app. simpl. by rewrite Nat.add_0_r. Qed.

Lemma GridSpec_getitem2_divmod g (i : Z) :
  0 < ncols g → 0 ≤ i → i `div` ncols g < nrows g →
  GridSpec_getitem2 g (i `div` ncols g) (i `mod` ncols g) = Ok (mkSubplotSpec g i).
Proof.
  intros Hc Hi Hr. unfold GridSpec_getitem2, normalize.
  pose proof (Z.div_pos i (ncols g) Hi Hc).
  pose proof (Z.mod_pos_bound i (ncols g) Hc).
  destruct (Z.ltb_spec (i `div` ncols g) 0); [lia|].
  destruct (Z.leb_spec 0 (i `div` ncols g)); [|lia].
  destruct (Z.ltb_spec (i `div` ncols g) (nrows g)); [|lia]. simpl.
  destruct (Z.ltb_spec (i `mod` ncols g) 0); [lia|].
  destruct (Z.leb_spec 0 (i `mod` ncols g)); [|lia].
  destruct (Z.ltb_spec (i `mod` ncols g) (ncols g)); [|lia]. simpl.
  do 2 f_equal. rewrite (Z.div_mod i (ncols g)) at 3 by lia. lia.
Qed.

Lemma GridSpec_new_Ok nr nc :
  0 < nr → 0 < nc → GridSpec_new nr nc = Ok (mkGridSpec nr nc).
Proof.
  intros. unfold GridSpec_new.
  destruct (Z.leb_spec nr 0); [lia|]. by destruct (Z.leb_spec nc 0); [lia|].
Qed.

Lemma GridSpec_getitem_Ok g (i : Z) :
  0 ≤ i < nrows g * ncols g → GridSpec_getitem g i = Ok (mkSubplotSpec g i).
Proof.
  intros Hi. unfold GridSpec_getitem, normalize.
  destruct (Z.ltb_spec i 0); [lia|].
  destruct (Z.leb_spec 0 i); [|lia].
  by destruct (Z.ltb_spec i (nrows g * ncols g)); [|lia].
Qed.

(** The repositioning loop of [__adjust_figure] over the first [n] axes. *)
Lemma reposition_eq (g : GridSpec) (c : MplCanvas) (n : nat) :
  0 < ncols g →
  (∀ i : nat, (i < n)%nat → Z.of_nat i `div` ncols g < nrows g) →
  (n ≤ length (fig_axes c))%nat →
  forM_ (enumerate (seq 0 n)) (λ ia,
    rc ← lift (divmod ia.1 (ncols g));
    ss ← lift (GridSpec_getitem2 g rc.1 rc.2);
    on_ax ia.2 (modify (set_subplotspec ss))) c
  = (Ok tt, set_fig_axes (moved g (take n (fig_axes c)) ++ drop n (fig_axes c)) c).
Proof.
  intros Hc. induction n as [|n IH]; intros Hr Hn.
  - simpl. rewrite drop_0. by destruct c.
  - rewrite seq_S, enumerate_snoc, forM__app. simpl "+"%nat.
    erewrite bind_ok by (apply IH; [intros; apply Hr|]; lia).
    unfold len. rewrite length_seq. cbn [forM_].
    destruct (lookup_lt_is_Some_2 (fig_axes c) n) as [a Ha]; [lia|].
    assert (Hlen : length (moved g (take n (fig_axes c))) = n)
      by (rewrite length_moved, length_take; lia).
    erewrite bind_ok; [reflexivity|].
    erewrite bind_ok
      by (unfold lift, divmod; destruct (Z.eqb_spec (ncols g) 0); [lia|done]).
    cbn [fst snd].
    erewrite bind_ok
      by (unfold lift; rewrite GridSpec_getitem2_divmod; [done|lia..|apply Hr; lia]).
    unfold on_ax. cbn [fig_axes set_fig_axes].
    rewrite (drop_S _ _ _ Ha).
    rewrite (list_lookup_middle _ (drop (S n) (fig_axes c)) a n) by done.
    unfold modify, set_fig_axes. cbn [fig_tight plots gs MAX_COL draws].
    rewrite <- Hlen at 1. rewrite <- (Nat.add_0_r (length _)), insert_app_r.
    rewrite (take_S_r _ _ _ Ha), moved_snoc, <- app_assoc.
    unfold len. rewrite length_take, Nat.min_l by lia. done.
Qed.

Lemma grown_bounds (c : MplCanvas) :
  0 < MAX_COL c →
  0 < ncols (grown_gs c) ≤ MAX_COL c ∧
  0 < nrows (grown_gs c) ∧
  (∀ i, 0 ≤ i ≤ len (fig_axes c) → i `div` ncols (grown_gs c) < nrows (grown_gs c)) ∧
  len (fig_axes c) < nrows (grown_gs c) * ncols (grown_gs c).
Proof.
  intros HM. pose proof (len_nonneg (fig_axes c)) as Hn.
  unfold grown_gs. cbn [nrows ncols].
  set (n := len (fig_axes c)) in *. set (nc := Z.min (MAX_COL c) (n + 1)).
  assert (Hnc : 0 < nc) by lia.
  replace (n + 1 + nc - 1) with (n + 1 * nc) by lia.
  rewrite Z.div_add by lia.
  pose proof (Z.div_pos n nc Hn Hnc).
  pose proof (Z.mod_pos_bound n nc Hnc).
  pose proof (Z.div_mod n nc ltac:(lia)).
  repeat split; try lia.
  intros i [Hi0 Hin]. pose proof (Z.div_le_mono i n nc Hnc Hin). lia.
Qed.

Lemma adjust_figure_eq (c : MplCanvas) :
  0 < MAX_COL c →
  adjust_figure c =
  (Ok (grown_gs c, length (fig_axes c)),
   mkCanvas (moved (grown_gs c) (fig_axes c)
               ++ [new_axes (mkSubplotSpec (grown_gs c) (len (fig_axes c)))])
            (fig_tight c) (plots c) (grown_gs c) (MAX_COL c) (draws c)).
Proof.
  intros HM. destruct (grown_bounds c HM) as ([Hc HcM] & Hr & Hdiv & Hlast).
  pose proof (len_nonneg (fig_axes c)) as Hn.
  unfold adjust_figure.
  erewrite bind_ok by reflexivity.
  erewrite bind_ok by reflexivity.
  assert (Hlen : len (seq 0 (length (fig_axes c))) = len (fig_axes c))
    by (unfold len; by rewrite length_seq).
  rewrite Hlen.
  erewrite bind_ok.
  2:{ unfold lift, floordiv. destruct (Z.eqb_spec (Z.min (MAX_COL c) (len (fig_axes c) + 1)) 0);
        [lia|reflexivity]. }
  change (mkGridSpec _ (Z.min (MAX_COL c) (len (fig_axes c) + 1))) with (grown_gs c) in *.
  erewrite bind_ok.
  2:{ unfold lift. rewrite GridSpec_new_Ok; [reflexivity|exact Hr|exact Hc]. }
  change (mkGridSpec _ _) with (grown_gs c).
  erewrite bind_ok.
  2:{ change (Z.min (MAX_COL c) (len (fig_axes c) + 1)) with (ncols (grown_gs c)).
      apply (reposition_eq (grown_gs c) c (length (fig_axes c))); [done| |done].
      intros i Hi. apply Hdiv. unfold len. lia. }
  rewrite firstn_all, drop_all, app_nil_r.
  erewrite bind_ok by (unfold lift; rewrite GridSpec_getitem_Ok by lia; reflexivity).
  erewrite bind_ok by reflexivity.
  erewrite bind_ok by reflexivity.
  cbn. by rewrite length_moved.
Qed.

(** ** [add_plot], in closed form *)

Lemma format_plot_eq name a : format_plot name a = (Ok tt, formatted name a).
Proof. reflexivity. Qed.

Lemma length_next_axes c : length (next_axes c) = length (fig_axes c).
Proof. unfold next_axes. destruct (grows c); [apply length_moved|done]. Qed.

Lemma on_ax_last {A} (m : M Axes A) axs a t p g mc d :
  on_ax (length axs) m (mkCanvas (axs ++ [a]) t p g mc d) =
  ((m a).1, mkCanvas (axs ++ [(m a).2]) t p g mc d).
Proof.
  unfold on_ax. cbn [fig_axes]. rewrite list_lookup_middle by done.
  destruct (m a) as [r a']. unfold set_fig_axes. cbn.
  rewrite <- (Nat.add_0_r (length axs)), insert_app_r. done.
Qed.

(** The layout step of [add_plot]: the [if] on the grid's capacity. *)
Lemma layout_step_eq (c : MplCanvas) :
  0 < MAX_COL c →
  (if ncols (gs c) * nrows (gs c) >=? len (plots c) + 1 then
     ss ← lift (GridSpec_getitem (gs c) (len (plots c)));
     add_subplot ss
   else
     r ← adjust_figure;
     modify (set_gs r.1);;
     mret r.2) c
  = (Ok (length (fig_axes c)),
     mkCanvas (next_axes c ++ [new_axes (next_spec c)])
              (fig_tight c) (plots c) (next_gs c) (MAX_COL c) (draws c)).
Proof.
  intros HM. unfold next_axes, next_spec, next_gs, grows.
  pose proof (len_nonneg (plots c)).
  destruct (Z.geb_spec (ncols (gs c) * nrows (gs c)) (len (plots c) + 1)); cbn [negb].
  - erewrite bind_ok
      by (unfold lift; rewrite GridSpec_getitem_Ok by lia; reflexivity).
    by destruct c.
  - erewrite bind_ok by (by apply adjust_figure_eq).
    reflexivity.
Qed.

Lemma add_plot_eq (c : MplCanvas) name data paired type :
  0 < MAX_COL c →
  add_plot name data paired type c =
  match (if paired then plot_paired data type else plot_unpaired data type)
          (new_axes (next_spec c)) with
  | (Ok _, a) =>
      (Ok tt,
       mkCanvas (next_axes c ++ [formatted name a]) (S (fig_tight c))
                (dict_set name (mkDataHolder (length (fig_axes c)) data paired type)
                          (plots c))
                (next_gs c) (MAX_COL c) (S (draws c)))
  | (Raise e, a) =>
      (Raise e,
       mkCanvas (next_axes c ++ [a]) (fig_tight c) (plots c) (next_gs c)
                (MAX_COL c) (draws c))
  end.
Proof.
  intros HM. unfold add_plot.
  erewrite bind_ok by reflexivity.
  erewrite bind_ok by reflexivity.
  erewrite bind_ok by (by apply layout_step_eq).
  rewrite <- (length_next_axes c).
  set (render := if paired then _ else _).
  destruct (render (new_axes (next_spec c))) as [[[]|e] a] eqn:E.
  - erewrite bind_ok by (rewrite on_ax_last, E; reflexivity).
    erewrite bind_ok by (rewrite on_ax_last, format_plot_eq; reflexivity).
    reflexivity.
  - erewrite bind_raise by (rewrite on_ax_last, E; reflexivity).
    reflexivity.
Qed.

(** ** Dictionaries *)

Lemma dict_get_set_eq {V} k (v : V) d : dict_get k (dict_set k v d) = Some v.
Proof.
  induction d as [|[k' v'] d IH]; simpl.
  - by rewrite decide_True.
  - destruct (decide (k' = k)) as [->|Hne]; simpl.
    + by rewrite decide_True.
    + by rewrite decide_False.
Qed.

Lemma dict_get_set_ne {V} k k0 (v : V) d :
  k ≠ k0 → dict_get k0 (dict_set k v d) = dict_get k0 d.
Proof.
  intros Hne. induction d as [|[k' v'] d IH]; simpl.
  - by rewrite decide_False.
  - destruct (decide (k' = k)) as [->|Hne']; simpl.
    + by rewrite !decide_False.
    + by rewrite IH.
Qed.

Lemma dict_get_None {V} k (d : list (string * V)) :
  dict_get k d = None ↔ k ∉ map fst d.
Proof.
  induction d as [|[k' v'] d IH]; simpl.
  - split; [intros _; apply not_elem_of_nil|done].
  - rewrite not_elem_of_cons. destruct (decide (k' = k)) as [->|Hne].
    + split; [done|]. by intros [? _].
    + rewrite IH. split; [intros ?; split; congruence|by intros [_ ?]].
Qed.

(** Setting a new key appends it. *)
Lemma dict_set_new {V} k (v : V) d :
  k ∉ map fst d → dict_set k v d = d ++ [(k, v)].
Proof.
  induction d as [|[k' v'] d IH]; simpl; [done|].
  intros [Hne Hnotin]%not_elem_of_cons.
  rewrite decide_False by done. by rewrite IH.
Qed.

(** Setting a key that is there keeps the keys and their order. *)
Lemma dict_set_keys {V} k (v : V) d :
  k ∈ map fst d → map fst (dict_set k v d) = map fst d.
Proof.
  induction d as [|[k' v'] d IH]; simpl.
  - intros H. by apply elem_of_nil in H.
  - intros H. destruct (decide (k' = k)) as [->|Hne]; simpl; [done|].
    apply elem_of_cons in H as [H|H]; [congruence|]. by rewrite IH.
Qed.

(** ** Results for the renderers *)

Lemma plot_paired_even (data : DataFrame) type ax :
  Nat.even (length data) = true →
  plot_paired data type ax =
  (Ok tt, add_artists (series_of data type (pairs_of (columns data))) ax).
Proof. intros H. by rewrite plot_paired_eq, detect_adjacent_pairs_even. Qed.

Lemma plot_paired_odd (data : DataFrame) type ax :
  Nat.odd (length data) = true → plot_paired data type ax = (Raise IndexError, ax).
Proof. intros H. by rewrite plot_paired_eq, detect_adjacent_pairs_odd. Qed.

Lemma render_eq (paired : bool) (data : DataFrame) type ax :
  (if paired then plot_paired data type else plot_unpaired data type) ax =
  if renderable paired data then (Ok tt, add_artists (rendered paired data type) ax)
  else (Raise IndexError, ax).
Proof.
  unfold renderable, rendered. destruct paired.
  - destruct (Nat.even (length data)) eqn:E.
    + by apply plot_paired_even.
    + apply plot_paired_odd. by rewrite <- Nat.negb_even, E.
  - rewrite plot_unpaired_eq. by destruct data.
Qed.

Lemma add_plot_cases (c : MplCanvas) name data paired type :
  0 < MAX_COL c →
  add_plot name data paired type c =
  if renderable paired data then
    (Ok tt,
     mkCanvas (next_axes c ++
                 [formatted name (add_artists (rendered paired data type)
                                              (new_axes (next_spec c)))])
              (S (fig_tight c))
              (dict_set name (mkDataHolder (length (fig_axes c)) data paired type)
                        (plots c))
              (next_gs c) (MAX_COL c) (S (draws c)))
  else
    (Raise IndexError,
     mkCanvas (next_axes c ++ [new_axes (next_spec c)]) (fig_tight c) (plots c)
              (next_gs c) (MAX_COL c) (draws c)).
Proof.
  intros HM. rewrite add_plot_eq, render_eq by done.
  by destruct (renderable paired data).
Qed.

(** A call returns exactly when its table is one its mode can render. *)
Lemma add_plot_returns_iff (c : MplCanvas) name data paired type :
  0 < MAX_COL c →
  (add_plot name data paired type c).1 = Ok tt ↔ renderable paired data = true.
Proof.
  intros HM. rewrite add_plot_cases by done. by destruct (renderable paired data).
Qed.

Lemma on_ax_eq {A} (m : M Axes A) (c : MplCanvas) (i : nat) a :
  fig_axes c !! i = Some a →
  on_ax i m c = ((m a).1, set_fig_axes (<[i := (m a).2]> (fig_axes c)) c).
Proof. intros H. unfold on_ax. rewrite H. by destruct (m a). Qed.

(** [update_plot] on a slot stored as paired, for a table with an even
    number of columns: the slot's axes is cleared, redrawn from the new
    table in the stored style and formatted; then [ax.draw()] raises. *)
Lemma update_plot_paired (c : MplCanvas) name (data : DataFrame) h a :
  dict_get name (plots c) = Some h →
  paired h = true →
  fig_axes c !! ax h = Some a →
  Nat.even (length data) = true →
  update_plot name data c =
  (Raise TypeError,
   set_fig_axes
     (<[ax h := formatted name
                  (add_artists (series_of data (type h) (pairs_of (columns data)))
                               (cleared a))]> (fig_axes c)) c).
Proof.
  intros Hget Hp Ha Hev. unfold update_plot.
  assert (Hg : ∀ c', plots c' = plots c → plots_getitem name c' = (Ok h, c')).
  { intros c' Hc'. unfold plots_getitem, dict_getitem. by rewrite Hc', Hget. }
  pose proof (lookup_lt_Some _ _ _ Ha) as Hlt.
  erewrite bind_ok by (by apply Hg).
  erewrite bind_ok by (erewrite on_ax_eq by done; reflexivity).
  do 3 (erewrite bind_ok by (by apply Hg)).
  rewrite Hp.
  erewrite bind_ok.
  2:{ erewrite on_ax_eq by (cbn; by apply list_lookup_insert_eq).
      rewrite plot_paired_even by done. reflexivity. }
  erewrite bind_ok.
  2:{ erewrite on_ax_eq
        by (cbn; apply list_lookup_insert_eq; by rewrite length_insert).
      rewrite format_plot_eq. reflexivity. }
  erewrite on_ax_eq
    by (cbn; apply list_lookup_insert_eq; by rewrite !length_insert).
  cbn. unfold set_fig_axes. cbn. by rewrite !list_insert_insert_eq.
Qed.

(** ** Tables with distinct labels *)

Lemma df_select_elem (df : DataFrame) name cells :
  NoDup (columns df) → (name, cells) ∈ df → df_select df name = [cells].
Proof.
  intros Hnd [i Hi]%list_elem_of_lookup. by eapply df_select_unique.
Qed.

Lemma pairs_of_map {A B} (f : A → B) (l : list A) :
  pairs_of (map f l) = map (λ p, (f p.1, f p.2)) (pairs_of l).
Proof.
  remember (length l) as n eqn:Hn. assert (Hle : (length l ≤ n)%nat) by lia.
  clear Hn. revert l Hle. induction n as [|n IH]; intros l Hle.
  - destruct l; [done|simpl in Hle; lia].
  - destruct l as [|a [|b l']]; [done..|]. simpl. f_equal.
    apply IH. simpl in Hle. lia.
Qed.

(** One round of a loop on two single columns draws one artist. *)
Lemma drawn_by_single (type : Z) (xs ys : list Z) lbl :
  type = 0 ∨ type = 1 →
  drawn_by type [xs] [ys] lbl = [mkArtist (kind_of type) [xs] [ys] lbl].
Proof. by intros [-> | ->]. Qed.

(** With distinct labels, what is drawn for pairs of columns of the table
    is one artist for each pair, of the cells of the two columns. *)
Lemma series_of_distinct (data : DataFrame) (type : Z)
    (ps : list ((string * list Z) * (string * list Z))) :
  NoDup (columns data) →
  (∀ p, p ∈ ps → p.1 ∈ data ∧ p.2 ∈ data) →
  type = 0 ∨ type = 1 →
  series_of data type (map (λ p, (p.1.1, p.2.1)) ps)
  = map (λ p, mkArtist (kind_of type) [p.1.2] [p.2.2] (p.1.1 +:+ " vs " +:+ p.2.1)) ps.
Proof.
  intros Hnd Hin Hty. unfold series_of.
  induction ps as [|[[x xs] [y ys]] ps IH]; [done|].
  destruct (Hin ((x, xs), (y, ys))) as [Hx Hy]; [left|]. cbn [map flat_map fst snd].
  rewrite (df_select_elem data x xs Hnd Hx), (df_select_elem data y ys Hnd Hy).
  rewrite drawn_by_single by done. rewrite IH; [done|].
  intros p Hp. apply Hin. by right.
Qed.

(** ** The claims *)

(** C2 (the odd case, where the code departs from the claim): in paired
    mode a table with an odd number of columns is not rendered with its
    last column left out; [detect_adjacent_pairs] reads one column past
    the end, so the renderer raises [IndexError] and draws no series. *)
Theorem paired_odd_columns_raise (data : DataFrame) (type : Z) (ax : Axes) :
  Nat.odd (length data) = true →
  detect_adjacent_pairs data = Raise IndexError ∧
  plot_paired data type ax = (Raise IndexError, ax).
Proof.
  intros H. split; [by apply detect_adjacent_pairs_odd|by apply plot_paired_odd].
Qed.

Lemma paired_odd_columns_raise_ABC :
  Nat.odd (length [("A", [1; 2]); ("B", [3; 4]); ("C", [5; 6])]) = true ∧
  detect_adjacent_pairs [("A", [1; 2]); ("B", [3; 4]); ("C", [5; 6])]
    = Raise IndexError ∧
  plot_paired [("A", [1; 2]); ("B", [3; 4]); ("C", [5; 6])] 0
              (new_axes (mkSubplotSpec (mkGridSpec 1 1) 0))
    = (Raise IndexError, new_axes (mkSubplotSpec (mkGridSpec 1 1) 0)).
Proof.
  split; [reflexivity|].
  apply (paired_odd_columns_raise
           [("A", [1; 2]); ("B", [3; 4]); ("C", [5; 6])] 0
           (new_axes (mkSubplotSpec (mkGridSpec 1 1) 0))).
  reflexivity.
Defined.

(** The even case of C2, which the code does implement for tables with
    distinct labels: the columns are taken two at a time in order, and
    each pair gives one series, of the cells of its two columns, under the
    label of their names joined by " vs ". *)
Lemma paired_even_columns_series (data : DataFrame) (type : Z) (ax : Axes) :
  Nat.even (length data) = true →
  NoDup (columns data) →
  type = 0 ∨ type = 1 →
  plot_paired data type ax =
  (Ok tt,
   add_artists
     (map (λ p, mkArtist (kind_of type) [p.1.2] [p.2.2] (p.1.1 +:+ " vs " +:+ p.2.1))
          (pairs_of data)) ax) ∧
  length (pairs_of data) = (length data / 2)%nat.
Proof.
  intros Hev Hnd Hty. split; [|apply length_pairs_of].
  rewrite plot_paired_even by done. unfold columns. rewrite pairs_of_map.
  rewrite (series_of_distinct data type (pairs_of data)); [done|done| |done].
  intros [a b] Hp. by apply pairs_of_elem.
Qed.

Example paired_ABCD (a b c d : list Z) (ax : Axes) :
  plot_paired [("A", a); ("B", b); ("C", c); ("D", d)] 0 ax =
  (Ok tt, add_artists [mkArtist LinePlot [a] [b] "A vs B";
                       mkArtist LinePlot [c] [d] "C vs D"] ax).
Proof. by rewrite plot_paired_even. Qed.

(** C3, as stated, fails on a table with a repeated label and for a style
    other than 0 and 1: for the columns A, B, B each of the two rounds
    draws two lines, four in all under the one label "A vs B", and in
    style 7 the columns A, B, C give no series at all. *)
Lemma unpaired_not_one_series_per_column :
  let ax0 := new_axes (mkSubplotSpec (mkGridSpec 1 1) 0) in
  plot_unpaired [("A", [1; 2]); ("B", [3; 4]); ("B", [5; 6])] 0 ax0
  = (Ok tt,
     add_artists [mkArtist LinePlot [[1; 2]] [[3; 4]] "A vs B";
                  mkArtist LinePlot [[1; 2]] [[5; 6]] "A vs B";
                  mkArtist LinePlot [[1; 2]] [[3; 4]] "A vs B";
                  mkArtist LinePlot [[1; 2]] [[5; 6]] "A vs B"] ax0) ∧
  plot_unpaired [("A", [1; 2]); ("B", [3; 4]); ("C", [5; 6])] 7 ax0 = (Ok tt, ax0).
Proof. split; vm_compute; reflexivity. Qed.

(** C3, amended: in unpaired mode, for a table of n >= 2 columns with
    pairwise distinct labels and style 0 (line) or 1 (scatter), exactly
    n-1 series are drawn, one for each column after the first, in order;
    each has the cells of column 0 as X, the cells of its own column as
    Y, and the label made of the name of column 0, " vs " and the name of
    its column. *)
Theorem unpaired_series (data : DataFrame) (type : Z) (ax : Axes) x_col (x : list Z) :
  (2 ≤ length data)%nat →
  data !! 0%nat = Some (x_col, x) →
  NoDup (columns data) →
  type = 0 ∨ type = 1 →
  plot_unpaired data type ax =
  (Ok tt,
   add_artists
     (map (λ c, mkArtist (if type =? 0 then LinePlot else ScatterPlot)
                         [x] [c.2] (x_col +:+ " vs " +:+ c.1))
          (drop 1 data)) ax) ∧
  length (drop 1 data) = (length data - 1)%nat.
Proof.
  intros Hn Hx Hnd Hty.
  destruct data as [|[x0 xs0] rest]; [done|]. simpl in Hx. injection Hx as -> ->.
  change (drop 1 ((x_col, x) :: rest)) with (drop 0 rest). rewrite drop_0.
  split; [|simpl; lia]. rewrite plot_unpaired_eq. cbn [columns map fst].
  replace (map (λ y, (x_col, y)) (map fst rest))
    with (map (λ p : (string * list Z) * (string * list Z), (p.1.1, p.2.1))
              (map (λ c, ((x_col, x), c)) rest))
    by (by rewrite !map_map).
  rewrite (series_of_distinct ((x_col, x) :: rest) type); [|done| |done].
  - by rewrite map_map.
  - intros p [c [-> Hc]]%list_elem_of_fmap. split; [left|by right].
Qed.

Lemma unpaired_series_ABC :
  let ax0 := new_axes (mkSubplotSpec (mkGridSpec 1 1) 0) in
  plot_unpaired [("A", [1; 2]); ("B", [3; 4]); ("C", [5; 6])] 0 ax0 =
  (Ok tt,
   add_artists [mkArtist LinePlot [[1; 2]] [[3; 4]] "A vs B";
                mkArtist LinePlot [[1; 2]] [[5; 6]] "A vs C"] ax0).
Proof.
  intros ax0.
  apply (unpaired_series [("A", [1; 2]); ("B", [3; 4]); ("C", [5; 6])] 0 ax0
           "A" [1; 2]); [simpl; lia|reflexivity|compute_done|by left].
Defined.

Example unpaired_ABC (a b c : list Z) (ax : Axes) :
  plot_unpaired [("A", a); ("B", b); ("C", c)] 0 ax =
  (Ok tt, add_artists [mkArtist LinePlot [a] [b] "A vs B";
                       mkArtist LinePlot [a] [c] "A vs C"] ax).
Proof. by rewrite plot_unpaired_eq. Qed.

(** C9: for a name that is not a key of [plots], [get_ax] and
    [update_plot] raise [KeyError] (the specification's NotFoundError) and
    leave the canvas as it was. *)
Theorem unknown_name_raises (c : MplCanvas) (name : string) (data : DataFrame) :
  dict_get name (plots c) = None →
  get_ax name c = (Raise KeyError, c) ∧
  update_plot name data c = (Raise KeyError, c).
Proof.
  intros H.
  assert (Hg : plots_getitem name c = (Raise KeyError, c))
    by (unfold plots_getitem, dict_getitem; by rewrite H).
  split.
  - unfold get_ax. by erewrite bind_raise.
  - unfold update_plot. by erewrite bind_raise.
Qed.

Lemma unknown_name_raises_missing :
  dict_get "missing" (plots init) = None ∧
  get_ax "missing" init = (Raise KeyError, init) ∧
  update_plot "missing" [("A", [1]); ("B", [2])] init = (Raise KeyError, init).
Proof.
  split; [reflexivity|].
  apply (unknown_name_raises init "missing" [("A", [1]); ("B", [2])]).
  reflexivity.
Defined.

(** C5 (where the code departs from the claim): on a slot stored as
    unpaired, [update_plot] clears the slot's axes and then raises
    [AttributeError], because it names the undefined [__plot_series]; the
    new table is not rendered, the axes is not formatted and not drawn. *)
Theorem update_plot_unpaired_raises (c : MplCanvas) name (data : DataFrame) h a :
  dict_get name (plots c) = Some h →
  paired h = false →
  fig_axes c !! ax h = Some a →
  update_plot name data c =
  (Raise AttributeError, set_fig_axes (<[ax h := cleared a]> (fig_axes c)) c).
Proof.
  intros Hget Hp Ha. unfold update_plot.
  assert (Hg : ∀ c', plots c' = plots c → plots_getitem name c' = (Ok h, c')).
  { intros c' Hc'. unfold plots_getitem, dict_getitem. by rewrite Hc', Hget. }
  erewrite bind_ok by (by apply Hg).
  erewrite bind_ok by (erewrite on_ax_eq by done; reflexivity).
  do 3 (erewrite bind_ok by (by apply Hg)).
  rewrite Hp. by erewrite bind_raise.
Qed.

Lemma update_plot_unpaired_raises_p :
  let c := (add_plot "p" [("A", [1; 2]); ("B", [3; 4])] false 0 init).2 in
  dict_get "p" (plots c)
    = Some (mkDataHolder 0 [("A", [1; 2]); ("B", [3; 4])] false 0) ∧
  update_plot "p" [("A", [5; 6]); ("B", [7; 8])] c =
  (Raise AttributeError,
   set_fig_axes [cleared (formatted "p"
                   (add_artists [mkArtist LinePlot [[1; 2]] [[3; 4]] "A vs B"]
                      (new_axes (mkSubplotSpec (mkGridSpec 1 1) 0))))] c).
Proof.
  intros c. split; [reflexivity|].
  apply (update_plot_unpaired_raises c "p" [("A", [5; 6]); ("B", [7; 8])]
           (mkDataHolder 0 [("A", [1; 2]); ("B", [3; 4])] false 0)
           (formatted "p"
              (add_artists [mkArtist LinePlot [[1; 2]] [[3; 4]] "A vs B"]
                 (new_axes (mkSubplotSpec (mkGridSpec 1 1) 0)))));
    reflexivity.
Defined.

Lemma series_of_other (data : DataFrame) type ps :
  type ≠ 0 → type ≠ 1 → series_of data type ps = [].
Proof.
  intros H0 H1. unfold series_of, drawn_by.
  destruct (Z.eqb_spec type 0); [done|]. destruct (Z.eqb_spec type 1); [done|].
  induction ps as [|p ps IH]; [done|]. simpl. exact IH.
Qed.

Lemma rendered_other paired (data : DataFrame) type :
  type ≠ 0 → type ≠ 1 → rendered paired data type = [].
Proof.
  intros H0 H1. unfold rendered.
  destruct paired; [by apply series_of_other|].
  destruct (columns data); [done|by apply series_of_other].
Qed.

Lemma lookup_snoc_length {A} (l : list A) a : (l ++ [a]) !! length l = Some a.
Proof. by apply list_lookup_middle. Qed.

(** C10, as stated, fails: with style 7, a paired call with three
    columns and an unpaired call with no column raise [IndexError] and
    store no slot. *)
Lemma other_style_call_may_raise :
  (add_plot "p" [("A", [1]); ("B", [2]); ("C", [3])] true 7 init).1 = Raise IndexError ∧
  plots (add_plot "p" [("A", [1]); ("B", [2]); ("C", [3])] true 7 init).2 = [] ∧
  (add_plot "p" [] false 7 init).1 = Raise IndexError ∧
  plots (add_plot "p" [] false 7 init).2 = [].
Proof. repeat split; vm_compute; reflexivity. Qed.

(** C10, amended: for a style value other than 0 and 1 neither renderer
    draws a series, on any table (the axes is left as it was); and
    [add_plot] on a table that suits its mode (paired: an even number of
    columns; unpaired: at least one column) returns: the new region is
    formatted, with no series and an empty legend, and the slot is stored
    under its name. *)
Theorem other_style_draws_nothing (c : MplCanvas) name (data : DataFrame)
    (paired : bool) (type : Z) :
  type ≠ 0 → type ≠ 1 →
  0 < MAX_COL c →
  renderable paired data = true →
  (∀ (d : DataFrame) ax,
     (plot_paired d type ax).2 = ax ∧ (plot_unpaired d type ax).2 = ax) ∧
  (∀ ax, (if paired then plot_paired data type else plot_unpaired data type) ax
         = (Ok tt, ax)) ∧
  ∃ c', add_plot name data paired type c = (Ok tt, c') ∧
        fig_axes c' !! length (fig_axes c)
          = Some (mkAxes (next_spec c) [] name "X-axis" "Y-axis" (Some []) true 0) ∧
        dict_get name (plots c')
          = Some (mkDataHolder (length (fig_axes c)) data paired type).
Proof.
  intros H0 H1 HM Hr. split; [|split].
  - intros d ax0. split.
    + pose proof (render_eq true d type ax0) as E. cbn beta iota in E. rewrite E.
      destruct (renderable true d); [|done]. cbn [snd].
      by rewrite rendered_other, add_artists_nil.
    + pose proof (render_eq false d type ax0) as E. cbn beta iota in E. rewrite E.
      destruct (renderable false d); [|done]. cbn [snd].
      by rewrite rendered_other, add_artists_nil.
  - intros ax0. by rewrite render_eq, Hr, rendered_other, add_artists_nil.
  - eexists. split; [by rewrite add_plot_cases, Hr|]. cbn [fig_axes plots]. split.
    + rewrite <- (length_next_axes c), lookup_snoc_length.
      by rewrite rendered_other, add_artists_nil.
    + apply dict_get_set_eq.
Qed.

Lemma other_style_draws_nothing_7 :
  renderable false [("A", [1; 2]); ("B", [3; 4])] = true ∧
  ∃ c', add_plot "p" [("A", [1; 2]); ("B", [3; 4])] false 7 init = (Ok tt, c') ∧
        fig_axes c' !! 0%nat
          = Some (mkAxes (mkSubplotSpec (mkGridSpec 1 1) 0) [] "p" "X-axis" "Y-axis"
                         (Some []) true 0) ∧
        dict_get "p" (plots c')
          = Some (mkDataHolder 0 [("A", [1; 2]); ("B", [3; 4])] false 7).
Proof.
  split; [reflexivity|].
  apply (other_style_draws_nothing init "p" [("A", [1; 2]); ("B", [3; 4])] false 7);
    [lia|lia|reflexivity|reflexivity].
Defined.

(** C4, as stated, fails: [add_plot("p1", table_with_1_column, False, 0)]
    on a new canvas is not rejected. *)
Lemma one_column_table_not_rejected :
  (length [("A", [1; 2; 3])] < 2)%nat ∧
  (add_plot "p1" [("A", [1; 2; 3])] false 0 init).1 = Ok tt ∧
  ¬ rejected "p1" [("A", [1; 2; 3])] false 0 init.
Proof.
  split; [simpl; lia|]. split; [vm_compute; reflexivity|].
  intros [e H]. vm_compute in H. discriminate H.
Qed.

(** C4, amended: [add_plot] does not validate its table.  An unpaired call
    with a table of one column, and a paired call with a table of no
    columns, return normally: the region is added with no series,
    formatted, and the slot is stored.  An unpaired call with a table of no
    columns raises [IndexError] once the layout step has added the
    region, and stores no slot. *)
Theorem short_table_not_validated (c : MplCanvas) name (data : DataFrame)
    (paired : bool) (type : Z) :
  0 < MAX_COL c →
  (paired = false ∧ length data = 1%nat ∨ paired = true ∧ data = [] →
   add_plot name data paired type c =
   (Ok tt,
    mkCanvas (next_axes c ++
                [mkAxes (next_spec c) [] name "X-axis" "Y-axis" (Some []) true 0])
             (S (fig_tight c))
             (dict_set name (mkDataHolder (length (fig_axes c)) data paired type)
                       (plots c))
             (next_gs c) (MAX_COL c) (S (draws c)))) ∧
  (paired = false ∧ data = [] →
   add_plot name data paired type c =
   (Raise IndexError,
    mkCanvas (next_axes c ++ [new_axes (next_spec c)]) (fig_tight c) (plots c)
             (next_gs c) (MAX_COL c) (draws c))).
Proof.
  intros HM. split.
  - intros [[-> Hl] | [-> ->]]; rewrite add_plot_cases by done.
    + by destruct data as [|col [|? ?]].
    + done.
  - intros [-> ->]. by rewrite add_plot_cases.
Qed.

Lemma short_table_not_validated_p1 :
  add_plot "p1" [("A", [1; 2; 3])] false 0 init =
  (Ok tt,
   mkCanvas [mkAxes (mkSubplotSpec (mkGridSpec 1 1) 0) [] "p1" "X-axis" "Y-axis"
                    (Some []) true 0]
            1 [("p1", mkDataHolder 0 [("A", [1; 2; 3])] false 0)]
            (mkGridSpec 1 1) 2 1).
Proof.
  apply (short_table_not_validated init "p1" [("A", [1; 2; 3])] false 0);
    [reflexivity|]. left. split; reflexivity.
Defined.

(** C7, as stated, fails: on a canvas holding one plot, an unpaired call
    with a table of no columns raises after the grid has been rebuilt as
    1x2 and a second region added, and stores no slot. *)
Lemma raising_call_keeps_new_layout :
  let c := (add_plot "a" [("A", [1]); ("B", [2])] false 0 init).2 in
  let rc := add_plot "p" [] false 0 c in
  rc.1 = Raise IndexError ∧
  gs c = mkGridSpec 1 1 ∧ gs rc.2 = mkGridSpec 1 2 ∧
  length (fig_axes c) = 1%nat ∧ length (fig_axes rc.2) = 2%nat ∧
  dict_get "p" (plots rc.2) = None ∧
  ¬ atomic rc.1 c rc.2.
Proof.
  cbv zeta. repeat split; try reflexivity.
  intros H. vm_compute in H. destruct H as [_ H]. discriminate H.
Qed.

(** C7, amended: [add_plot] is not atomic.  The region is added (after
    the grid has been rebuilt and the older regions moved, when the grid
    was full) before the table is rendered, and the slot is stored last.
    A call that returns has done both; a call that raises has added its
    region all the same and has left the slot mapping as it was. *)
Theorem add_plot_layout_then_store (c : MplCanvas) name (data : DataFrame)
    (paired : bool) (type : Z) r c' :
  0 < MAX_COL c →
  add_plot name data paired type c = (r, c') →
  length (fig_axes c') = S (length (fig_axes c)) ∧
  gs c' = next_gs c ∧
  match r with
  | Ok _ =>
      dict_get name (plots c')
        = Some (mkDataHolder (length (fig_axes c)) data paired type)
  | Raise e =>
      e = IndexError ∧ plots c' = plots c ∧
      fig_axes c' = next_axes c ++ [new_axes (next_spec c)]
  end.
Proof.
  intros HM. rewrite add_plot_cases by done.
  destruct (renderable paired data); intros [= <- <-]; cbn [fig_axes gs plots].
  - rewrite length_app, length_next_axes. simpl.
    split; [lia|]. split; [done|]. apply dict_get_set_eq.
  - rewrite length_app, length_next_axes. simpl. split; [lia|done].
Qed.

Lemma add_plot_layout_then_store_empty :
  ∃ c', add_plot "p" [] false 0 init = (Raise IndexError, c') ∧
        length (fig_axes c') = 1%nat ∧ plots c' = [].
Proof.
  eexists. split; [reflexivity|].
  destruct (add_plot_layout_then_store init "p" [] false 0 _ _ ltac:(reflexivity)
              eq_refl) as (Hlen & _ & _ & Hplots & _).
  split; [exact Hlen|exact Hplots].
Defined.

Lemma dict_get_Some_elem {V} k (v : V) d : dict_get k d = Some v → k ∈ map fst d.
Proof.
  intros H. destruct (decide (k ∈ map fst d)) as [|Hn]; [done|].
  apply dict_get_None in Hn. congruence.
Qed.

(** C8, as stated, fails: with three plots on a 2x2 grid, adding under
    the name of the first again does not grow the grid, yet the slot
    leaves cell 0 for cell 3. *)
Lemma existing_name_changes_region :
  let t := [("A", [1; 2]); ("B", [3; 4])] in
  let c := (add_plots [mkCall "a" t false 0; mkCall "b" t false 0;
                       mkCall "c" t false 0] init).2 in
  let rc := add_plot "a" t false 0 c in
  rc.1 = Ok tt ∧
  gs rc.2 = gs c ∧
  region_of "a" c = Some (mkSubplotSpec (mkGridSpec 2 2) 0) ∧
  region_of "a" rc.2 = Some (mkSubplotSpec (mkGridSpec 2 2) 3) ∧
  region_of "a" rc.2 ≠ region_of "a" c.
Proof. vm_compute. do 4 (split; [reflexivity|]). discriminate. Qed.

(** C8, amended: a returning [add_plot] call under a name already in the
    mapping leaves the number of slots, their names and their order as
    they were, and every other slot untouched; it overwrites the slot's
    table, mode and style and binds the slot to a region created by the
    call, at the next cell.  The region the slot had stays on the figure
    with what was drawn on it, moved only when the grid is rebuilt. *)
Theorem add_plot_existing_name (c : MplCanvas) name (data : DataFrame)
    (paired : bool) (type : Z) h :
  0 < MAX_COL c →
  dict_get name (plots c) = Some h →
  (ax h < length (fig_axes c))%nat →
  renderable paired data = true →
  ∃ c', add_plot name data paired type c = (Ok tt, c') ∧
    length (plots c') = length (plots c) ∧
    map fst (plots c') = map fst (plots c) ∧
    (∀ k, k ≠ name → dict_get k (plots c') = dict_get k (plots c)) ∧
    dict_get name (plots c')
      = Some (mkDataHolder (length (fig_axes c)) data paired type) ∧
    length (fig_axes c') = S (length (fig_axes c)) ∧
    ax h ≠ length (fig_axes c) ∧
    region_of name c' = Some (next_spec c) ∧
    ∃ a, fig_axes c !! ax h = Some a ∧
         fig_axes c' !! ax h
           = Some (if grows c
                   then set_subplotspec (mkSubplotSpec (grown_gs c) (Z.of_nat (ax h))) a
                   else a).
Proof.
  intros HM Hget Hlt Hr. eexists. split; [by rewrite add_plot_cases, Hr|].
  cbn [fig_axes plots].
  assert (Hkeys : map fst (dict_set name
                    (mkDataHolder (length (fig_axes c)) data paired type) (plots c))
                  = map fst (plots c))
    by (apply dict_set_keys; by eapply dict_get_Some_elem).
  split; [by rewrite <- (length_map fst), Hkeys, length_map|].
  split; [done|].
  split; [intros k Hk; by apply dict_get_set_ne|].
  split; [apply dict_get_set_eq|].
  split; [rewrite length_app, length_next_axes; simpl; lia|].
  split; [lia|].
  split.
  - unfold region_of. cbn [plots fig_axes]. rewrite dict_get_set_eq. cbn.
    rewrite <- (length_next_axes c), lookup_snoc_length. cbn.
    by destruct (grows c).
  - destruct (lookup_lt_is_Some_2 (fig_axes c) (ax h) Hlt) as [a Ha].
    exists a. split; [done|].
    rewrite lookup_app_l by (by rewrite length_next_axes).
    unfold next_axes. destruct (grows c); [|done].
    unfold moved. by rewrite list_lookup_imap, Ha.
Qed.

Lemma add_plot_existing_name_a :
  let t := [("A", [1; 2]); ("B", [3; 4])] in
  let c := (add_plots [mkCall "a" t false 0; mkCall "b" t false 0;
                       mkCall "c" t false 0] init).2 in
  dict_get "a" (plots c) = Some (mkDataHolder 0 t false 0) ∧
  ∃ c', add_plot "a" t true 1 c = (Ok tt, c') ∧
        length (plots c') = 3%nat ∧
        dict_get "a" (plots c') = Some (mkDataHolder 3 t true 1).
Proof.
  cbv zeta. split; [vm_compute; reflexivity|].
  destruct (add_plot_existing_name
              (add_plots [mkCall "a" [("A", [1; 2]); ("B", [3; 4])] false 0;
                          mkCall "b" [("A", [1; 2]); ("B", [3; 4])] false 0;
                          mkCall "c" [("A", [1; 2]); ("B", [3; 4])] false 0] init).2
              "a" [("A", [1; 2]); ("B", [3; 4])] true 1
              (mkDataHolder 0 [("A", [1; 2]); ("B", [3; 4])] false 0))
    as (c' & Hrun & Hlen & _ & _ & Hslot & _);
    [vm_compute; reflexivity|vm_compute; reflexivity|vm_compute; lia
    |reflexivity|].
  exists c'. split; [exact Hrun|]. split; [exact Hlen|exact Hslot].
Defined.

(** ** Calls with distinct names on a new canvas *)

Lemma Inv_init : Inv [] init.
Proof. by constructor. Qed.

Lemma grid_for_next (n : nat) :
  (if ncols (grid_for n) * nrows (grid_for n) >=? Z.of_nat n + 1
   then grid_for n
   else let total_plots := Z.of_nat n + 1 in
        let nc := Z.min 2 total_plots in
        mkGridSpec ((total_plots + nc - 1) `div` nc) nc)
  = grid_for (S n).
Proof.
  destruct n as [|m]; [reflexivity|].
  cbv zeta. replace (Z.of_nat (S m) + 1) with (Z.of_nat (S (S m))) by lia.
  destruct (Z.geb_spec (ncols (grid_for (S m)) * nrows (grid_for (S m)))
                       (Z.of_nat (S (S m)))) as [Hge|]; [|reflexivity].
  unfold grid_for in *. cbn [ncols nrows] in Hge.
  destruct m as [|m]; [change (2 ≤ 1) in Hge; lia|].
  rewrite !Z.min_l in * by lia. f_equal.
  set (k := Z.of_nat (S (S m))) in *.
  replace (Z.of_nat (S (S (S m)))) with (k + 1) in * by lia.
  assert (0 ≤ k) by lia. clearbody k.
  pose proof (Z.div_mod (k + 2 - 1) 2 ltac:(lia)).
  pose proof (Z.mod_pos_bound (k + 2 - 1) 2 ltac:(lia)).
  pose proof (Z.div_mod (k + 1 + 2 - 1) 2 ltac:(lia)).
  pose proof (Z.mod_pos_bound (k + 1 + 2 - 1) 2 ltac:(lia)).
  lia.
Qed.

Lemma map_subplotspec_moved g axs :
  map subplotspec (moved g axs)
  = map (λ i, mkSubplotSpec g (Z.of_nat i)) (seq 0 (length axs)).
Proof.
  induction axs as [|a axs IH] using rev_ind; [done|].
  rewrite moved_snoc, length_app, Nat.add_1_r, seq_S, !map_app, IH. done.
Qed.

Lemma add_artists_subplotspec l a : subplotspec (add_artists l a) = subplotspec a.
Proof. done. Qed.

(** One more returning call, under a new name. *)
Lemma Inv_add_plot names (c c' : MplCanvas) name (data : DataFrame) paired type :
  Inv names c →
  name ∉ names →
  add_plot name data paired type c = (Ok tt, c') →
  Inv (names ++ [name]) c'.
Proof.
  intros [HM Hgs Hspecs Hkeys Hrefs] Hnew.
  assert (Hla : length (fig_axes c) = length names)
    by (rewrite <- (length_map subplotspec), Hspecs, length_map, length_seq; done).
  assert (Hlp : length (plots c) = length names)
    by (by rewrite <- (length_map fst), Hkeys).
  rewrite add_plot_cases by lia.
  destruct (renderable paired data); [|done]. intros [= <-].
  assert (Hnext : next_gs c = grid_for (S (length names))).
  { rewrite <- grid_for_next. unfold next_gs, grows, grown_gs, len.
    rewrite Hgs, Hlp, Hla, HM.
    by destruct (_ >=? _). }
  assert (Hcell : next_spec c = mkSubplotSpec (next_gs c) (Z.of_nat (length names))).
  { unfold next_spec, next_gs, len. rewrite Hlp, Hla. by destruct (grows c). }
  assert (Hold : map subplotspec (next_axes c)
                 = map (λ i, mkSubplotSpec (next_gs c) (Z.of_nat i))
                       (seq 0 (length names))).
  { unfold next_axes, next_gs. destruct (grows c); [|done].
    by rewrite map_subplotspec_moved, Hla. }
  constructor; cbn [MAX_COL gs fig_axes plots].
  - done.
  - by rewrite length_app, Nat.add_1_r.
  - rewrite length_app, Nat.add_1_r, seq_S, !map_app, Hold. cbn.
    by rewrite Hcell.
  - rewrite dict_set_new by (by rewrite Hkeys). by rewrite map_app, Hkeys.
  - rewrite dict_set_new by (by rewrite Hkeys).
    rewrite length_app, Nat.add_1_r, seq_S, map_app, Hrefs. cbn. by rewrite Hla.
Qed.

Lemma Inv_add_plots (calls : list Call) names (c c' : MplCanvas) rs :
  Inv names c →
  add_plots calls c = (rs, c') →
  Forall (λ r, r = Ok tt) rs →
  NoDup (names ++ map c_name calls) →
  Inv (names ++ map c_name calls) c'.
Proof.
  revert names c rs. induction calls as [|k calls IH]; intros names c rs HI Hrun Hok Hnd.
  - injection Hrun as <- <-. by rewrite app_nil_r.
  - simpl in Hrun.
    destruct (add_plot _ _ _ _ c) as [r c1] eqn:E1.
    destruct (add_plots calls c1) as [rs' c2] eqn:E2.
    injection Hrun as <- <-. apply Forall_cons in Hok as [-> Hok].
    simpl in *.
    change (c_name k :: map c_name calls) with ([c_name k] ++ map c_name calls) in *.
    rewrite (assoc_L (++)) in *.
    eapply IH; [|done..].
    eapply Inv_add_plot; [done| |done].
    apply NoDup_app in Hnd as (Hnd & _ & _). apply NoDup_app in Hnd as (_ & Hnd & _).
    intros Hin. apply (Hnd _ Hin). left.
Qed.

Lemma Inv_laid_row_major names c : Inv names c → laid_row_major c.
Proof.
  intros [HM Hgs Hspecs Hkeys Hrefs].
  assert (Hla : length (fig_axes c) = length names)
    by (rewrite <- (length_map subplotspec), Hspecs, length_map, length_seq; done).
  assert (Hlp : length (plots c) = length names)
    by (by rewrite <- (length_map fst), Hkeys).
  assert (Hgrid : 0 < ncols (gs c) ≤ 2 ∧
            ∀ i : nat, (i < length names)%nat →
                       Z.of_nat i `div` ncols (gs c) < nrows (gs c)).
  { rewrite Hgs. unfold grid_for. destruct (length names) as [|m] eqn:En.
    - split; [simpl; lia|intros; lia].
    - cbn [ncols nrows]. set (k := Z.of_nat (S m)). assert (1 ≤ k) by lia.
      split; [lia|]. intros i Hi. assert (Hik : Z.of_nat i < k) by lia.
      set (nc := Z.min 2 k) in *. assert (0 < nc) by lia.
      replace (k + nc - 1) with (k - 1 + 1 * nc) by lia.
      rewrite Z.div_add by lia.
      pose proof (Z.div_le_mono (Z.of_nat i) (k - 1) nc ltac:(lia) ltac:(lia)). lia. }
  destruct Hgrid as [Hnc Hrows].
  split; [by rewrite Hla, Hlp|]. split; [|split; [|split]].
  - intros i name h Hi.
    assert (Hax : ax h = i ∧ (i < length names)%nat).
    { assert (Hr : map (λ p, ax p.2) (plots c) !! i = Some (ax h))
        by (by rewrite list_lookup_fmap, Hi).
      rewrite Hrefs in Hr. apply lookup_seq in Hr. simpl in Hr. lia. }
    destruct Hax as [<- Hlt].
    assert (Hs : map subplotspec (fig_axes c) !! ax h
                 = Some (mkSubplotSpec (gs c) (Z.of_nat (ax h)))).
    { rewrite Hspecs, list_lookup_fmap, lookup_seq_lt by done. cbn. done. }
    rewrite list_lookup_fmap in Hs.
    destruct (fig_axes c !! ax h) as [a|]; [|done]. injection Hs as Hs.
    exists a. rewrite Hs. unfold position. cbn [ss_gs num1].
    repeat split; try done; [apply Z.div_pos; lia|by apply Hrows].
  - rewrite Hrefs. apply NoDup_seq.
  - replace (map (λ a, position (subplotspec a)) (fig_axes c))
      with (map position (map subplotspec (fig_axes c))) by (by rewrite map_map).
    rewrite Hspecs, map_map.
    apply (NoDup_fmap_2_strong _ (seq 0 (length names))); [|apply NoDup_seq].
    intros i j _ _. unfold position. cbn [ss_gs num1]. intros [= Hq Hm].
    pose proof (Z.div_mod (Z.of_nat i) (ncols (gs c)) ltac:(lia)).
    pose proof (Z.div_mod (Z.of_nat j) (ncols (gs c)) ltac:(lia)).
    rewrite Hq, Hm in *. lia.
  - lia.
Qed.

Lemma Inv_of_run (calls : list Call) rs c :
  add_plots calls init = (rs, c) →
  Forall (λ r, r = Ok tt) rs →
  NoDup (map c_name calls) →
  Inv (map c_name calls) c.
Proof. intros Hrun Hok Hnd. by apply (Inv_add_plots calls [] init c rs Inv_init). Qed.

(** C1, as stated, fails when a call of the sequence raises: the call
    has added its region but no slot, so the next call finds room in the
    1x1 grid and after 2 calls with distinct names the grid still has 1
    column, not min(2, 2).  So it is after a paired call with three
    columns, and after an unpaired call with no column. *)
Lemma raising_call_keeps_grid_small :
  let t := [("A", [1; 2]); ("B", [3; 4])] in
  let rc := add_plots [mkCall "a" [("A", [1]); ("B", [2]); ("C", [3])] true 0;
                       mkCall "b" t false 0] init in
  let rc' := add_plots [mkCall "a" [] false 0; mkCall "b" t false 0] init in
  rc.1 = [Raise IndexError; Ok tt] ∧ gs rc.2 = mkGridSpec 1 1 ∧
  ncols (gs rc.2) ≠ Z.min (MAX_COL rc.2) 2 ∧
  rc'.1 = [Raise IndexError; Ok tt] ∧ gs rc'.2 = mkGridSpec 1 1 ∧
  ncols (gs rc'.2) ≠ Z.min (MAX_COL rc'.2) 2.
Proof. vm_compute. repeat split; discriminate. Qed.

(** C1, amended: on a new canvas (at most 2 columns), after N >= 1
    [add_plot] calls with pairwise distinct names, each of which returns,
    the grid has min(2, N) columns and ceil(N / columns) rows: the rows
    are [(N + cols - 1) // cols], the least number of rows of that width
    with room for N cells. *)
Theorem layout_after_distinct_calls (calls : list Call) rs (c : MplCanvas) :
  add_plots calls init = (rs, c) →
  Forall (λ r, r = Ok tt) rs →
  NoDup (map c_name calls) →
  calls ≠ [] →
  MAX_COL c = 2 ∧
  ncols (gs c) = Z.min (MAX_COL c) (len calls) ∧
  nrows (gs c) = (len calls + ncols (gs c) - 1) `div` ncols (gs c) ∧
  (nrows (gs c) - 1) * ncols (gs c) < len calls ≤ nrows (gs c) * ncols (gs c).
Proof.
  intros Hrun Hok Hnd Hne.
  destruct (Inv_of_run calls rs c Hrun Hok Hnd) as [HM Hgs _ _ _].
  rewrite length_map in Hgs. rewrite Hgs, HM. unfold len, grid_for.
  destruct calls as [|k calls]; [done|]. simpl length. cbn [ncols nrows].
  set (n := Z.of_nat (S (length calls))). assert (1 ≤ n) by lia. clearbody n.
  split; [done|]. split; [done|]. split; [done|].
  set (nc := Z.min 2 n). assert (0 < nc ≤ 2) by lia.
  replace (n + nc - 1) with (n - 1 + 1 * nc) by lia. rewrite Z.div_add by lia.
  pose proof (Z.div_mod (n - 1) nc ltac:(lia)).
  pose proof (Z.mod_pos_bound (n - 1) nc ltac:(lia)). nia.
Qed.

Lemma layout_after_five_calls :
  let t := [("A", [1; 2]); ("B", [3; 4])] in
  let calls := [mkCall "a" t false 0; mkCall "b" t true 1; mkCall "c" t false 1;
                mkCall "d" t true 0; mkCall "e" t false 0] in
  let c := (add_plots calls init).2 in
  MAX_COL c = 2 ∧
  ncols (gs c) = Z.min (MAX_COL c) 5 ∧
  nrows (gs c) = (5 + ncols (gs c) - 1) `div` ncols (gs c) ∧
  (nrows (gs c) - 1) * ncols (gs c) < 5 ≤ nrows (gs c) * ncols (gs c).
Proof.
  intros t calls c.
  apply (layout_after_distinct_calls calls (add_plots calls init).1 c).
  - vm_compute. reflexivity.
  - vm_compute. repeat constructor.
  - compute_done.
  - discriminate.
Defined.

(** The scenario of the specification: 3 plots give a 2x2 grid, a 4th
    keeps it, a 5th grows it to 3x2, the five regions in cells 0 to 4. *)
Example grid_scenario :
  let t := [("A", [1; 2]); ("B", [3; 4])] in
  let k n := mkCall n t false 0 in
  gs (add_plots [k "a"; k "b"; k "c"] init).2 = mkGridSpec 2 2 ∧
  gs (add_plots [k "a"; k "b"; k "c"; k "d"] init).2 = mkGridSpec 2 2 ∧
  gs (add_plots [k "a"; k "b"; k "c"; k "d"; k "e"] init).2 = mkGridSpec 3 2 ∧
  map subplotspec (fig_axes (add_plots [k "a"; k "b"; k "c"; k "d"; k "e"] init).2)
  = map (mkSubplotSpec (mkGridSpec 3 2)) [0; 1; 2; 3; 4].
Proof. vm_compute. repeat split. Qed.

(** C6, as stated, fails: after returning calls under the names a, a, b
    the figure shows three regions for two slots, and the regions of the
    two slots both sit in cell 1 of the 1x2 grid. *)
Lemma repeated_name_breaks_layout :
  let t := [("A", [1; 2]); ("B", [3; 4])] in
  let rc := add_plots [mkCall "a" t false 0; mkCall "a" t false 0;
                       mkCall "b" t false 0] init in
  rc.1 = [Ok tt; Ok tt; Ok tt] ∧
  length (fig_axes rc.2) = 3%nat ∧ length (plots rc.2) = 2%nat ∧
  region_of "a" rc.2 = Some (mkSubplotSpec (mkGridSpec 1 2) 1) ∧
  region_of "b" rc.2 = Some (mkSubplotSpec (mkGridSpec 1 2) 1) ∧
  ¬ laid_row_major rc.2.
Proof.
  cbv zeta. do 5 (split; [vm_compute; reflexivity|]).
  intros [H _]. vm_compute in H. discriminate H.
Qed.

(** C6, amended: on a new canvas, after any sequence of returning
    [add_plot] calls with pairwise distinct names (so after each call of
    such a sequence, growing or not), the slots are the calls' names in
    call order, there is one region per slot, the slot of insertion index
    i has its region in the current grid at row [i div cols] and column
    [i mod cols], inside the grid, no two regions share a cell, and the
    grid has at most [MAX_COL] columns. *)
Theorem distinct_calls_laid_row_major (calls : list Call) rs (c : MplCanvas) :
  add_plots calls init = (rs, c) →
  Forall (λ r, r = Ok tt) rs →
  NoDup (map c_name calls) →
  map fst (plots c) = map c_name calls ∧ laid_row_major c.
Proof.
  intros Hrun Hok Hnd. pose proof (Inv_of_run calls rs c Hrun Hok Hnd) as HI.
  split; [by destruct HI|by eapply Inv_laid_row_major].
Qed.

Lemma distinct_calls_laid_row_major_five :
  let t := [("A", [1; 2]); ("B", [3; 4])] in
  let calls := [mkCall "a" t false 0; mkCall "b" t true 1; mkCall "c" t false 1;
                mkCall "d" t true 0; mkCall "e" t false 0] in
  let c := (add_plots calls init).2 in
  map fst (plots c) = ["a"; "b"; "c"; "d"; "e"] ∧ laid_row_major c.
Proof.
  intros t calls c.
  apply (distinct_calls_laid_row_major calls (add_plots calls init).1 c).
  - vm_compute. reflexivity.
  - vm_compute. repeat constructor.
  - compute_done.
Defined.

(** ** References to axes stay valid *)

Lemma frame_refl c : frame c c.
Proof. done. Qed.

Lemma frame_trans c1 c2 c3 : frame c1 c2 → frame c2 c3 → frame c1 c3.
Proof. intros (?&?&?) (?&?&?). repeat split; congruence. Qed.

Lemma framed_bind {A B} (m : M MplCanvas A) (f : A → M MplCanvas B) :
  framed m → (∀ a, framed (f a)) → framed (m ≫= f).
Proof.
  intros Hm Hf c r c'. unfold mbind, M_bind.
  destruct (m c) as [[a|e] c1] eqn:E.
  - intros H. eapply frame_trans; [by eapply Hm|by eapply Hf].
  - intros [= <- <-]. by eapply Hm.
Qed.

Lemma framed_plots_getitem name : framed (plots_getitem name).
Proof. intros c r c' [= _ <-]. apply frame_refl. Qed.

Lemma framed_raise {A} e : framed (raise (A := A) e).
Proof. intros c r c' [= _ <-]. apply frame_refl. Qed.

Lemma framed_on_ax {A} i (m : M Axes A) : framed (on_ax i m).
Proof.
  intros c r c'. unfold on_ax. destruct (fig_axes c !! i) as [a|].
  - destruct (m a) as [r' a']. intros [= _ <-].
    repeat split. cbn. apply length_insert.
  - intros [= _ <-]. apply frame_refl.
Qed.

Lemma framed_update_plot name (data : DataFrame) : framed (update_plot name data).
Proof.
  unfold update_plot.
  repeat (apply framed_bind; [|intros ?]);
    try apply framed_plots_getitem; try apply framed_on_ax.
  destruct (paired _); [apply framed_on_ax|apply framed_raise].
Qed.

Lemma wf_init : wf init.
Proof. split; [done|]. intros name h H. discriminate H. Qed.

Lemma wf_frame c c' : frame c c' → wf c → wf c'.
Proof. intros (Hp & HM & Hl) [H0 Hr]. split; [lia|]. rewrite Hp, Hl. exact Hr. Qed.

Lemma wf_update_plot c name (data : DataFrame) :
  wf c → wf (update_plot name data c).2.
Proof.
  destruct (update_plot name data c) as [r c'] eqn:E. apply wf_frame.
  by eapply framed_update_plot.
Qed.

Lemma wf_add_plot c name (data : DataFrame) paired type :
  wf c → wf (add_plot name data paired type c).2.
Proof.
  intros [HM Hr]. rewrite add_plot_cases by done.
  destruct (renderable paired data); cbn [snd]; (split; [done|]);
    cbn [plots fig_axes]; intros k h; rewrite length_app, length_next_axes; simpl.
  - destruct (decide (name = k)) as [<-|Hne].
    + rewrite dict_get_set_eq. intros [= <-]. simpl. lia.
    + rewrite dict_get_set_ne by done. intros H%Hr. lia.
  - intros H%Hr. lia.
Qed.

(** On a well-formed canvas no method runs into a reference that names
    no axes. *)
Lemma no_dangling_ref c name (data : DataFrame) (p : bool) (t : Z) :
  wf c →
  (add_plot name data p t c).1 ≠ Raise DanglingRef ∧
  (update_plot name data c).1 ≠ Raise DanglingRef.
Proof.
  intros [HM Hr]. split.
  - rewrite add_plot_cases by done. by destruct (renderable p data).
  - destruct (dict_get name (plots c)) as [h|] eqn:Hget.
    + destruct (lookup_lt_is_Some_2 (fig_axes c) (ax h)) as [a Ha]; [by eapply Hr|].
      pose proof (lookup_lt_Some _ _ _ Ha) as Hlt.
      unfold update_plot.
      assert (Hg : ∀ c', plots c' = plots c → plots_getitem name c' = (Ok h, c')).
      { intros c' Hc'. unfold plots_getitem, dict_getitem. by rewrite Hc', Hget. }
      erewrite bind_ok by (by apply Hg).
      erewrite bind_ok by (erewrite on_ax_eq by done; reflexivity).
      do 3 (erewrite bind_ok by (by apply Hg)).
      destruct (paired h); [|erewrite bind_raise by reflexivity; done].
      destruct (Nat.even (length data)) eqn:Hev.
      * erewrite bind_ok.
        2:{ erewrite on_ax_eq by (cbn; by apply list_lookup_insert_eq).
            rewrite plot_paired_even by done. reflexivity. }
        erewrite bind_ok.
        2:{ erewrite on_ax_eq
              by (cbn; apply list_lookup_insert_eq; by rewrite length_insert).
            rewrite format_plot_eq. reflexivity. }
        erewrite on_ax_eq
          by (cbn; apply list_lookup_insert_eq; by rewrite !length_insert).
        done.
      * erewrite bind_raise; [|].
        2:{ erewrite on_ax_eq by (cbn; by apply list_lookup_insert_eq).
            rewrite plot_paired_odd by (by rewrite <- Nat.negb_even, Hev).
            reflexivity. }
        done.
    + unfold update_plot. erewrite bind_raise; [|].
      2:{ unfold plots_getitem, dict_getitem. rewrite Hget. reflexivity. }
      done.
Qed.

(** ** More on the renderers and on formatting *)

(** X1: formatting a region twice is formatting it once with the later
    name: title, axis labels, legend and grid are those of the second
    call alone, and what is drawn, the cell and the draw count are kept.
    The legend has an entry for every artist whose label is not empty and
    does not start with an underscore. *)
Theorem format_plot_last_wins (n1 n2 : string) (a : Axes) :
  (format_plot n1;; format_plot n2) a = format_plot n2 a ∧
  (format_plot n2 a).1 = Ok tt ∧
  artists (format_plot n2 a).2 = artists a ∧
  subplotspec (format_plot n2 a).2 = subplotspec a ∧
  ax_draws (format_plot n2 a).2 = ax_draws a ∧
  title (format_plot n2 a).2 = n2 ∧
  legend (format_plot n2 a).2
    = Some (List.filter in_legend (map label (artists a))).
Proof.
  rewrite (bind_ok _ _ _ _ _ (format_plot_eq n1 a)), !format_plot_eq.
  by destruct a.
Qed.

Lemma unpair_pairs_of {A} (l : list A) :
  Nat.even (length l) = true → unpair (pairs_of l) = l.
Proof.
  remember (length l) as n eqn:Hn. assert (Hle : (length l ≤ n)%nat) by lia.
  rewrite Hn. clear Hn. revert l Hle. induction n as [|n IH]; intros l Hle Hev.
  - destruct l; [done|simpl in Hle; lia].
  - destruct l as [|a [|b l']]; [done|done|].
    simpl in *. f_equal. f_equal. apply IH; [lia|done].
Qed.

(** X2: for a table with an even number of columns (none included),
    [detect_adjacent_pairs] returns half as many pairs as there are
    columns, and the pairs written out in order are the columns again:
    every column is used exactly once and none is reordered. *)
Theorem detect_adjacent_pairs_unpair (df : DataFrame) :
  Nat.even (length df) = true →
  ∃ ps, detect_adjacent_pairs df = Ok ps ∧
        unpair ps = columns df ∧
        length ps = (length df / 2)%nat.
Proof.
  intros Hev. exists (pairs_of (columns df)).
  split; [by apply detect_adjacent_pairs_even|].
  split.
  - apply unpair_pairs_of. unfold columns. by rewrite length_map.
  - rewrite length_pairs_of. unfold columns. by rewrite length_map.
Qed.

Lemma detect_adjacent_pairs_unpair_ABCD :
  Nat.even (length [("A", [1]); ("B", [2]); ("C", [3]); ("D", [4])]) = true ∧
  ∃ ps, detect_adjacent_pairs [("A", [1]); ("B", [2]); ("C", [3]); ("D", [4])] = Ok ps ∧
        unpair ps = ["A"; "B"; "C"; "D"] ∧ length ps = 2%nat.
Proof.
  split; [reflexivity|].
  apply (detect_adjacent_pairs_unpair [("A", [1]); ("B", [2]); ("C", [3]); ("D", [4])]).
  reflexivity.
Defined.

(** ** More on [add_plot] *)

(** X3: for a table with pairwise distinct column labels, [add_plot]
    returns exactly when the table suits the mode, an even number of
    columns in paired mode and at least one column in unpaired mode;
    otherwise it raises [IndexError], and it raises nothing else. *)
Theorem add_plot_raises_iff (c : MplCanvas) name (data : DataFrame)
    (paired : bool) (type : Z) :
  0 < MAX_COL c →
  NoDup (columns data) →
  ((add_plot name data paired type c).1 = Ok tt ↔
   (paired = true ∧ Nat.even (length data) = true) ∨ (paired = false ∧ data ≠ [])) ∧
  ((add_plot name data paired type c).1 = Raise IndexError ↔
   (paired = true ∧ Nat.odd (length data) = true) ∨ (paired = false ∧ data = [])) ∧
  ((add_plot name data paired type c).1 = Ok tt ∨
   (add_plot name data paired type c).1 = Raise IndexError).
Proof.
  intros HM _. rewrite add_plot_cases by done. unfold renderable.
  destruct paired.
  - rewrite <- Nat.negb_even. destruct (Nat.even (length data)); cbn [fst negb].
    + split; [|split]; [split; [by left|done]| |by left].
      split; [done|]. by intros [[_ ?]|[? _]].
    + split; [|split]; [|split; [by left|done] |by right].
      split; [done|]. by intros [[_ ?]|[? _]].
  - destruct data as [|col data]; cbn [fst length Nat.eqb negb].
    + split; [|split]; [|split; [by right|done] |by right].
      split; [done|]. by intros [[? _]|[_ ?]].
    + split; [|split]; [split; [by right|done]| |by left].
      split; [done|]. by intros [[? _]|[_ ?]].
Qed.

Lemma add_plot_raises_iff_init :
  (add_plot "p" [("A", [1]); ("B", [2]); ("C", [3])] true 0 init).1 = Raise IndexError ∧
  (add_plot "p" [("A", [1]); ("B", [2]); ("C", [3])] false 0 init).1 = Ok tt.
Proof.
  split.
  - apply (add_plot_raises_iff init "p" [("A", [1]); ("B", [2]); ("C", [3])] true 0).
    + reflexivity.
    + compute_done.
    + left. split; reflexivity.
  - apply (add_plot_raises_iff init "p" [("A", [1]); ("B", [2]); ("C", [3])] false 0).
    + reflexivity.
    + compute_done.
    + right. split; [reflexivity|discriminate].
Defined.

(** X4: after a returning [add_plot], [get_ax] of the plot's name returns
    the region the call created and changes nothing; [get_ax] of any other
    name answers as it did before the call. *)
Theorem get_ax_after_add_plot (c c' : MplCanvas) name (data : DataFrame)
    (paired : bool) (type : Z) :
  0 < MAX_COL c →
  add_plot name data paired type c = (Ok tt, c') →
  get_ax name c' = (Ok (length (fig_axes c)), c') ∧
  (length (fig_axes c) < length (fig_axes c'))%nat ∧
  ∀ other, other ≠ name → (get_ax other c').1 = (get_ax other c).1.
Proof.
  intros HM. rewrite add_plot_cases by done.
  destruct (renderable paired data); [|done]. intros [= <-].
  unfold get_ax, plots_getitem, dict_getitem, mbind, M_bind. cbn [plots fig_axes].
  rewrite dict_get_set_eq. split; [done|]. split.
  - rewrite length_app, length_next_axes. simpl. lia.
  - intros other Hne. rewrite dict_get_set_ne by done.
    by destruct (dict_get other (plots c)).
Qed.

Lemma get_ax_after_add_plot_init :
  let c' := (add_plot "p" [("A", [1]); ("B", [2])] false 0 init).2 in
  add_plot "p" [("A", [1]); ("B", [2])] false 0 init = (Ok tt, c') ∧
  get_ax "p" c' = (Ok 0%nat, c').
Proof.
  cbv zeta. split; [vm_compute; reflexivity|].
  destruct (get_ax_after_add_plot init
              (add_plot "p" [("A", [1]); ("B", [2])] false 0 init).2
              "p" [("A", [1]); ("B", [2])] false 0) as [H _];
    [reflexivity|vm_compute; reflexivity|exact H].
Defined.

(** X5: [add_plot], returning or raising, leaves every region that was on
    the figure with what was drawn on it, its title, labels, legend, grid
    and draw count; only the cell of a region changes, and only when the
    grid is rebuilt, to the cell of the region's index. *)
Theorem add_plot_keeps_old_renders (c : MplCanvas) name (data : DataFrame)
    (paired : bool) (type : Z) (i : nat) (a : Axes) :
  0 < MAX_COL c →
  fig_axes c !! i = Some a →
  ∃ a', fig_axes (add_plot name data paired type c).2 !! i = Some a' ∧
        artists a' = artists a ∧ title a' = title a ∧
        xlabel a' = xlabel a ∧ ylabel a' = ylabel a ∧
        legend a' = legend a ∧ grid a' = grid a ∧ ax_draws a' = ax_draws a ∧
        subplotspec a' = (if grows c
                          then mkSubplotSpec (grown_gs c) (Z.of_nat i)
                          else subplotspec a).
Proof.
  intros HM Ha. pose proof (lookup_lt_Some _ _ _ Ha) as Hlt.
  assert (Hold : ∃ a', next_axes c !! i = Some a' ∧
            artists a' = artists a ∧ title a' = title a ∧
            xlabel a' = xlabel a ∧ ylabel a' = ylabel a ∧
            legend a' = legend a ∧ grid a' = grid a ∧ ax_draws a' = ax_draws a ∧
            subplotspec a' = (if grows c
                              then mkSubplotSpec (grown_gs c) (Z.of_nat i)
                              else subplotspec a)).
  { unfold next_axes. destruct (grows c).
    - eexists. unfold moved. rewrite list_lookup_imap, Ha. cbn. done.
    - exists a. done. }
  destruct Hold as (a' & Ha' & Hrest). exists a'. split; [|exact Hrest].
  rewrite add_plot_cases by done.
  destruct (renderable paired data); cbn [snd fig_axes];
    by rewrite lookup_app_l by (by rewrite length_next_axes).
Qed.

Lemma add_plot_keeps_old_renders_second :
  let t := [("A", [1; 2]); ("B", [3; 4])] in
  let c := (add_plot "a" t false 0 init).2 in
  ∃ a', fig_axes (add_plot "b" t true 1 c).2 !! 0%nat = Some a' ∧
        artists a' = [mkArtist LinePlot [[1; 2]] [[3; 4]] "A vs B"] ∧
        title a' = "a" ∧
        subplotspec a' = mkSubplotSpec (mkGridSpec 1 2) 0.
Proof.
  cbv zeta.
  destruct (add_plot_keeps_old_renders
              (add_plot "a" [("A", [1; 2]); ("B", [3; 4])] false 0 init).2
              "b" [("A", [1; 2]); ("B", [3; 4])] true 1 0
              (mkAxes (mkSubplotSpec (mkGridSpec 1 1) 0)
                      [mkArtist LinePlot [[1; 2]] [[3; 4]] "A vs B"]
                      "a" "X-axis" "Y-axis" (Some ["A vs B"]) true 0))
    as (a' & Ha' & Hart & Htitle & _ & _ & _ & _ & _ & Hss);
    [vm_compute; reflexivity|vm_compute; reflexivity|].
  exists a'. split; [exact Ha'|]. split; [exact Hart|]. split; [exact Htitle|].
  exact Hss.
Defined.

(** ** More on [update_plot] *)

(** [update_plot] on a known slot whose reference names an axes, in
    closed form. *)
Lemma update_plot_cases (c : MplCanvas) name (data : DataFrame) h a :
  dict_get name (plots c) = Some h →
  fig_axes c !! ax h = Some a →
  update_plot name data c =
  if paired h then
    if Nat.even (length data) then
      (Raise TypeError,
       set_fig_axes
         (<[ax h := formatted name
                      (add_artists (series_of data (type h) (pairs_of (columns data)))
                                   (cleared a))]> (fig_axes c)) c)
    else (Raise IndexError, set_fig_axes (<[ax h := cleared a]> (fig_axes c)) c)
  else (Raise AttributeError, set_fig_axes (<[ax h := cleared a]> (fig_axes c)) c).
Proof.
  intros Hget Ha. pose proof (lookup_lt_Some _ _ _ Ha) as Hlt.
  destruct (paired h) eqn:Hp; [destruct (Nat.even (length data)) eqn:Hev|].
  - by apply update_plot_paired.
  - unfold update_plot.
    assert (Hg : ∀ c', plots c' = plots c → plots_getitem name c' = (Ok h, c')).
    { intros c' Hc'. unfold plots_getitem, dict_getitem. by rewrite Hc', Hget. }
    erewrite bind_ok by (by apply Hg).
    erewrite bind_ok by (erewrite on_ax_eq by done; reflexivity).
    do 3 (erewrite bind_ok by (by apply Hg)). rewrite Hp.
    erewrite bind_raise; [reflexivity|].
    erewrite on_ax_eq by (cbn; by apply list_lookup_insert_eq).
    rewrite plot_paired_odd by (by rewrite <- Nat.negb_even, Hev).
    cbn. unfold set_fig_axes. cbn. by rewrite list_insert_insert_eq.
  - unfold update_plot.
    assert (Hg : ∀ c', plots c' = plots c → plots_getitem name c' = (Ok h, c')).
    { intros c' Hc'. unfold plots_getitem, dict_getitem. by rewrite Hc', Hget. }
    erewrite bind_ok by (by apply Hg).
    erewrite bind_ok by (erewrite on_ax_eq by done; reflexivity).
    do 3 (erewrite bind_ok by (by apply Hg)). rewrite Hp.
    by erewrite bind_raise.
Qed.

(** Whatever [update_plot] does, the canvas it leaves is the one it was
    given, up to the axes of the named slot. *)
Lemma update_plot_state (c : MplCanvas) name (data : DataFrame) :
  (update_plot name data c).2 = c ∨
  ∃ h a', dict_get name (plots c) = Some h ∧
          (update_plot name data c).2 = set_fig_axes (<[ax h := a']> (fig_axes c)) c.
Proof.
  destruct (dict_get name (plots c)) as [h|] eqn:Hget.
  - destruct (fig_axes c !! ax h) as [a|] eqn:Ha.
    + right. exists h. rewrite (update_plot_cases c name data h a Hget Ha).
      destruct (paired h); [destruct (Nat.even (length data))|]; by eexists.
    + left. unfold update_plot.
      erewrite bind_ok
        by (unfold plots_getitem, dict_getitem; rewrite Hget; reflexivity).
      erewrite bind_raise; [reflexivity|]. unfold on_ax. by rewrite Ha.
  - left. unfold update_plot.
    erewrite bind_raise; [reflexivity|].
    unfold plots_getitem, dict_getitem. by rewrite Hget.
Qed.

(** X6: [update_plot], returning or raising, changes nothing but the axes
    of the named slot: the slot mapping (so also the table stored for the
    slot, which stays the one given to [add_plot]), the grid, the column
    limit, the layout and redraw counts, the number of regions and every
    other region are as before. *)
Theorem update_plot_touches_only_slot (c : MplCanvas) name (data : DataFrame) :
  plots (update_plot name data c).2 = plots c ∧
  gs (update_plot name data c).2 = gs c ∧
  MAX_COL (update_plot name data c).2 = MAX_COL c ∧
  fig_tight (update_plot name data c).2 = fig_tight c ∧
  draws (update_plot name data c).2 = draws c ∧
  length (fig_axes (update_plot name data c).2) = length (fig_axes c) ∧
  ∀ j, (∀ h, dict_get name (plots c) = Some h → j ≠ ax h) →
       fig_axes (update_plot name data c).2 !! j = fig_axes c !! j.
Proof.
  destruct (update_plot_state c name data) as [-> | (h & a' & Hget & ->)]; [done|].
  cbn. repeat split; [apply length_insert|].
  intros j Hj. apply list_lookup_insert_ne. intros Heq. by apply (Hj h Hget).
Qed.

(** X7: on a slot stored as paired whose region is cleared by a table
    with an odd number of columns, [update_plot] raises [IndexError] and
    leaves the region blank: the old series, title, labels and legend are
    gone and nothing is drawn in their place. *)
Theorem update_plot_paired_odd_blanks (c : MplCanvas) name (data : DataFrame) h a :
  dict_get name (plots c) = Some h →
  paired h = true →
  fig_axes c !! ax h = Some a →
  Nat.odd (length data) = true →
  update_plot name data c =
  (Raise IndexError,
   set_fig_axes
     (<[ax h := mkAxes (subplotspec a) [] "" "" "" None false (ax_draws a)]>
        (fig_axes c)) c).
Proof.
  intros Hget Hp Ha Hodd. rewrite (update_plot_cases c name data h a Hget Ha), Hp.
  rewrite <- Nat.negb_even in Hodd. by destruct (Nat.even (length data)).
Qed.

Lemma update_plot_paired_odd_blanks_p :
  let t := [("A", [1; 2]); ("B", [3; 4])] in
  let c := (add_plot "p" t true 0 init).2 in
  update_plot "p" [("A", [1]); ("B", [2]); ("C", [3])] c =
  (Raise IndexError,
   set_fig_axes [mkAxes (mkSubplotSpec (mkGridSpec 1 1) 0) [] "" "" "" None false 0] c).
Proof.
  cbv zeta.
  apply (update_plot_paired_odd_blanks
           (add_plot "p" [("A", [1; 2]); ("B", [3; 4])] true 0 init).2 "p"
           [("A", [1]); ("B", [2]); ("C", [3])]
           (mkDataHolder 0 [("A", [1; 2]); ("B", [3; 4])] true 0)
           (mkAxes (mkSubplotSpec (mkGridSpec 1 1) 0)
                   [mkArtist LinePlot [[1; 2]] [[3; 4]] "A vs B"]
                   "p" "X-axis" "Y-axis" (Some ["A vs B"]) true 0));
    reflexivity.
Defined.

(** X8: after a returning paired [add_plot] of a table with pairwise
    distinct labels, [update_plot] with the same name and the same table
    redraws the region as it was and then raises [TypeError] at
    [ax.draw()]: the canvas is left exactly as it was. *)
Theorem update_after_add_plot (c c' : MplCanvas) name (data : DataFrame) (style : Z) :
  0 < MAX_COL c →
  NoDup (columns data) →
  add_plot name data true style c = (Ok tt, c') →
  update_plot name data c' = (Raise TypeError, c').
Proof.
  intros HM _. rewrite add_plot_cases by done.
  destruct (renderable true data) eqn:Hr; [|done]. intros [= <-].
  erewrite update_plot_cases;
    [|cbn [plots]; apply dict_get_set_eq
     |cbn [fig_axes ax]; rewrite <- (length_next_axes c); apply lookup_snoc_length].
  cbn [paired type ax]. unfold renderable in Hr. rewrite Hr.
  unfold set_fig_axes. cbn [fig_axes fig_tight plots gs MAX_COL draws].
  rewrite list_insert_id; [done|].
  rewrite <- (length_next_axes c). apply lookup_snoc_length.
Qed.

Lemma update_after_add_plot_p :
  let t := [("A", [1; 2]); ("B", [3; 4])] in
  let c' := (add_plot "p" t true 1 init).2 in
  add_plot "p" t true 1 init = (Ok tt, c') ∧
  update_plot "p" t c' = (Raise TypeError, c').
Proof.
  cbv zeta. split; [vm_compute; reflexivity|].
  apply (update_after_add_plot init
           (add_plot "p" [("A", [1; 2]); ("B", [3; 4])] true 1 init).2
           "p" [("A", [1; 2]); ("B", [3; 4])] 1);
    [reflexivity|compute_done|vm_compute; reflexivity].
Defined.

(** X15: on a slot stored as paired in style 0 or 1, [update_plot] with
    a table of an even number of columns with pairwise distinct labels
    clears the slot's region, draws the series of the new table alone in
    the stored style, and formats the region under the slot's name; then
    [ax.draw()] raises [TypeError], so the call does not return and the
    draw count stays as it was. *)
Theorem update_plot_paired_raises_at_draw (c : MplCanvas) name (data : DataFrame) h a :
  dict_get name (plots c) = Some h →
  paired h = true →
  fig_axes c !! ax h = Some a →
  Nat.even (length data) = true →
  NoDup (columns data) →
  type h = 0 ∨ type h = 1 →
  let new :=
    map (λ p, mkArtist (if type h =? 0 then LinePlot else ScatterPlot)
                       [p.1.2] [p.2.2] (p.1.1 +:+ " vs " +:+ p.2.1))
        (pairs_of data) in
  update_plot name data c =
  (Raise TypeError,
   set_fig_axes
     (<[ax h := mkAxes (subplotspec a) new name "X-axis" "Y-axis"
                       (Some (List.filter in_legend (map label new)))
                       true (ax_draws a)]> (fig_axes c)) c).
Proof.
  intros Hget Hp Ha Hev Hnd Hty new.
  rewrite (update_plot_cases c name data h a Hget Ha), Hp, Hev.
  unfold columns. rewrite pairs_of_map.
  rewrite (series_of_distinct data (type h) (pairs_of data)); [done|done| |done].
  intros [p q] Hpq. by apply pairs_of_elem.
Qed.

Lemma update_plot_paired_raises_at_draw_p :
  let t := [("A", [1; 2]); ("B", [3; 4])] in
  let c := (add_plot "p" t true 1 init).2 in
  update_plot "p" [("X", [5]); ("Y", [6])] c =
  (Raise TypeError,
   set_fig_axes [mkAxes (mkSubplotSpec (mkGridSpec 1 1) 0)
                        [mkArtist ScatterPlot [[5]] [[6]] "X vs Y"]
                        "p" "X-axis" "Y-axis" (Some ["X vs Y"]) true 0] c).
Proof.
  cbv zeta.
  apply (update_plot_paired_raises_at_draw
           (add_plot "p" [("A", [1; 2]); ("B", [3; 4])] true 1 init).2 "p"
           [("X", [5]); ("Y", [6])]
           (mkDataHolder 0 [("A", [1; 2]); ("B", [3; 4])] true 1)
           (mkAxes (mkSubplotSpec (mkGridSpec 1 1) 0)
                   [mkArtist ScatterPlot [[1; 2]] [[3; 4]] "A vs B"]
                   "p" "X-axis" "Y-axis" (Some ["A vs B"]) true 0));
    [reflexivity|reflexivity|reflexivity|reflexivity|compute_done|by right].
Defined.

(** ** What every sequence of calls keeps *)

Lemma length_dict_set {V} k (v : V) d :
  (length d ≤ length (dict_set k v d) ≤ S (length d))%nat.
Proof.
  induction d as [|[k' v'] d IH]; simpl; [lia|].
  destruct (decide (k' = k)); simpl; lia.
Qed.

Lemma get_ax_state name c : (get_ax name c).2 = c.
Proof.
  unfold get_ax, plots_getitem, mbind, M_bind.
  by destruct (dict_getitem name (plots c)).
Qed.

Lemma sound_init : sound init.
Proof.
  unfold sound, capacity, len. cbn. repeat split; try lia.
  intros name h H. discriminate H.
Qed.

Lemma sound_wf c : sound c → wf c.
Proof. intros (HM & _ & _ & _ & _ & Hr). split; [lia|done]. Qed.

Lemma sound_add_plot c name (data : DataFrame) (p : bool) (t : Z) :
  sound c → sound (add_plot name data p t c).2.
Proof.
  intros Hs. pose proof (wf_add_plot c name data p t (sound_wf c Hs)) as [_ Hrefs].
  destruct Hs as (HM & Hnc & Hnr & Hle & Hcap & _).
  assert (H0 : 0 < MAX_COL c) by lia.
  destruct (grown_bounds c H0) as (Hgc & Hgr & _ & Hglast).
  revert Hrefs. rewrite add_plot_cases by done. intros Hrefs.
  assert (Hgrid : 0 < ncols (next_gs c) ≤ 2 ∧ 0 < nrows (next_gs c) ∧
                  len (plots c) + 1 ≤ nrows (next_gs c) * ncols (next_gs c)).
  { unfold next_gs, grows. unfold len in *.
    destruct (Z.geb_spec (ncols (gs c) * nrows (gs c)) (Z.of_nat (length (plots c)) + 1));
      cbn [negb]; (split; [lia|]); (split; [lia|]); lia. }
  destruct Hgrid as (Hc' & Hr' & Hroom).
  pose proof (length_dict_set name (mkDataHolder (length (fig_axes c)) data p t)
                (plots c)) as Hds.
  destruct (renderable p data); cbn [snd] in *;
    unfold sound, capacity, len in *; cbn [MAX_COL gs plots fig_axes] in *;
    rewrite length_app, length_next_axes in *; simpl length in *;
    repeat split; try lia; done.
Qed.

Lemma sound_update_plot c name (data : DataFrame) :
  sound c → sound (update_plot name data c).2.
Proof.
  intros (HM & Hnc & Hnr & Hle & Hcap & Hrefs).
  destruct (update_plot_state c name data) as [-> | (h & a' & _ & ->)]; [done|].
  unfold sound, capacity in *. cbn. rewrite length_insert. done.
Qed.

Lemma sound_run_op o c : sound c → sound (run_op o c).
Proof.
  intros Hs. destruct o; simpl.
  - by apply sound_add_plot.
  - by apply sound_update_plot.
  - by rewrite get_ax_state.
Qed.

Lemma sound_run_ops ops c : sound c → sound (run_ops ops c).
Proof.
  revert c. induction ops as [|o ops IH]; intros c Hs; [done|].
  apply IH. by apply sound_run_op.
Qed.

(** X9: on a canvas made from a new one by any calls of [add_plot],
    [update_plot] and [get_ax], returning or raising, [get_ax] changes
    nothing and a region it returns is one of the figure's regions. *)
Theorem get_ax_names_a_region (ops : list Op) name (i : nat) (c' : MplCanvas) :
  get_ax name (run_ops ops init) = (Ok i, c') →
  c' = run_ops ops init ∧
  ∃ h a, dict_get name (plots c') = Some h ∧ ax h = i ∧ fig_axes c' !! i = Some a.
Proof.
  pose proof (sound_run_ops ops init sound_init) as (_ & _ & _ & _ & _ & Hrefs).
  set (c := run_ops ops init) in *.
  unfold get_ax, plots_getitem, dict_getitem, mbind, M_bind.
  destruct (dict_get name (plots c)) as [h|] eqn:Hget; [|done].
  cbn. intros [= <- <-]. split; [done|].
  destruct (lookup_lt_is_Some_2 (fig_axes c) (ax h)) as [a Ha]; [by eapply Hrefs|].
  by exists h, a.
Qed.

Lemma get_ax_names_a_region_b :
  let t := [("A", [1; 2]); ("B", [3; 4])] in
  let ops := [OpAdd "a" t false 0; OpAdd "a" [("A", [1])] true 0;
              OpUpdate "a" t; OpAdd "b" t true 1] in
  ∃ h a, dict_get "b" (plots (run_ops ops init)) = Some h ∧ ax h = 2%nat ∧
         fig_axes (run_ops ops init) !! 2%nat = Some a.
Proof.
  intros t ops.
  destruct (get_ax_names_a_region ops "b" 2 (run_ops ops init)) as [_ H];
    [vm_compute; reflexivity|exact H].
Defined.

(** X10: after any calls from a new canvas, returning or raising, the
    column limit is 2, the grid has one or two columns and at least one
    row, and it has at least as many cells as there are slots. *)
Theorem grid_has_room (ops : list Op) :
  MAX_COL (run_ops ops init) = 2 ∧
  0 < ncols (gs (run_ops ops init)) ≤ 2 ∧
  0 < nrows (gs (run_ops ops init)) ∧
  len (plots (run_ops ops init)) ≤ capacity (run_ops ops init).
Proof.
  pose proof (sound_run_ops ops init sound_init) as (HM & Hnc & Hnr & _ & Hcap & _).
  done.
Qed.

Lemma length_fig_axes_run_op o c :
  sound c →
  length (fig_axes (run_op o c)) =
  (length (fig_axes c) + (if is_add o then 1 else 0))%nat.
Proof.
  intros Hs. destruct o as [name data p t|name data|name]; simpl.
  - destruct Hs as (HM & _). rewrite add_plot_cases by lia.
    destruct (renderable p data); cbn; by rewrite length_app, length_next_axes.
  - destruct (update_plot_state c name data) as [-> | (h & a' & _ & ->)]; [lia|].
    cbn. rewrite length_insert. lia.
  - rewrite get_ax_state. lia.
Qed.

(** X11: regions are never removed and only [add_plot] makes one: after
    any calls from a new canvas the figure has exactly one region per
    [add_plot] call made, returned or raised, and no more slots than
    regions. *)
Theorem regions_count_add_calls (ops : list Op) :
  length (fig_axes (run_ops ops init)) = count_adds ops ∧
  (length (plots (run_ops ops init)) ≤ count_adds ops)%nat.
Proof.
  assert (H : ∀ c, sound c →
            length (fig_axes (run_ops ops c))
            = (length (fig_axes c) + count_adds ops)%nat).
  { induction ops as [|o ops IH]; intros c Hs; [unfold count_adds; simpl; lia|].
    change (run_ops (o :: ops) c) with (run_ops ops (run_op o c)).
    rewrite IH by (by apply sound_run_op). rewrite length_fig_axes_run_op by done.
    unfold count_adds. simpl. destruct (is_add o); simpl; lia. }
  pose proof (sound_run_ops ops init sound_init) as (_ & _ & _ & Hle & _).
  rewrite H in * by apply sound_init. simpl in *. done.
Qed.

(** X12: [add_plot], returning or raising, never shrinks the grid.  On a
    canvas with no more slots than regions, the grid is kept as it is
    when it has a free cell for one more slot, and otherwise replaced by
    one with more cells, enough for every region with the new one. *)
Theorem grid_never_shrinks (c : MplCanvas) name (data : DataFrame)
    (paired : bool) (type : Z) :
  0 < MAX_COL c →
  (length (plots c) ≤ length (fig_axes c))%nat →
  capacity c ≤ capacity (add_plot name data paired type c).2 ∧
  (len (plots c) + 1 ≤ capacity c → gs (add_plot name data paired type c).2 = gs c) ∧
  (capacity c < len (plots c) + 1 →
   capacity c < capacity (add_plot name data paired type c).2 ∧
   len (fig_axes (add_plot name data paired type c).2)
     ≤ capacity (add_plot name data paired type c).2).
Proof.
  intros HM Hle. destruct (grown_bounds c HM) as (_ & _ & _ & Hglast).
  assert (Hgs : gs (add_plot name data paired type c).2 = next_gs c)
    by (rewrite add_plot_cases by done; by destruct (renderable paired data)).
  assert (Hlen : length (fig_axes (add_plot name data paired type c).2)
                 = S (length (fig_axes c))).
  { rewrite add_plot_cases by done.
    destruct (renderable paired data); cbn; rewrite length_app, length_next_axes;
      simpl; lia. }
  unfold capacity. rewrite Hgs. unfold len in *. rewrite Hlen.
  unfold next_gs, grows, len.
  destruct (Z.geb_spec (ncols (gs c) * nrows (gs c)) (Z.of_nat (length (plots c)) + 1));
    cbn [negb].
  - split; [lia|]. split; [done|]. intros ?. lia.
  - split; [lia|]. split; [intros ?; lia|]. intros _. lia.
Qed.

Lemma grid_never_shrinks_second :
  let t := [("A", [1; 2]); ("B", [3; 4])] in
  let c := (add_plot "a" t false 0 init).2 in
  capacity c = 1 ∧ capacity c < capacity (add_plot "b" t false 0 c).2.
Proof.
  cbv zeta. split; [reflexivity|].
  destruct (grid_never_shrinks
              (add_plot "a" [("A", [1; 2]); ("B", [3; 4])] false 0 init).2
              "b" [("A", [1; 2]); ("B", [3; 4])] false 0)
    as (_ & _ & Hgrow); [vm_compute; reflexivity|vm_compute; lia|].
  apply Hgrow. vm_compute. reflexivity.
Defined.

(** ** The window *)

Lemma Forall_dict_set {V} (Q : V → Prop) k (v : V) d :
  Q v → Forall (λ p, Q p.2) d → Forall (λ p, Q p.2) (dict_set k v d).
Proof.
  intros Hv. induction d as [|[k' v'] d IH]; intros Hd; simpl.
  - by constructor.
  - apply Forall_cons in Hd as [Hh Hd].
    destruct (decide (k' = k)); constructor; auto.
Qed.

Lemma new_plot_known_style (k : Click) (c : MplCanvas) :
  MAX_COL c = 2 ∧ Forall (λ p, type p.2 = 0 ∨ type p.2 = 1) (plots c) →
  let c' := (new_plot (k_file k) (k_df k) (k_title k) (k_paired k) (k_type k) c).2 in
  MAX_COL c' = 2 ∧ Forall (λ p, type p.2 = 0 ∨ type p.2 = 1) (plots c').
Proof.
  intros [HM Hall]. unfold new_plot, parse_data.
  destruct (bool_decide (k_file k = "")); [done|].
  destruct ((k_title k).2); cbn [negb]; [|done].
  rewrite add_plot_cases by lia.
  destruct (renderable _ (k_df k)); cbn; [|done]. split; [done|].
  apply (Forall_dict_set (λ h, type h = 0 ∨ type h = 1)); [|done]. cbn.
  destruct (bool_decide _); [by left|by right].
Qed.

(** X13: whatever is answered in the dialogs, over any number of presses
    of the button on a new window, every stored slot has style 0 or 1:
    the window never stores a plot in a style the renderers draw nothing
    for. *)
Theorem presses_store_known_styles (ks : list Click) :
  Forall (λ p, type p.2 = 0 ∨ type p.2 = 1) (plots (presses ks init)).
Proof.
  assert (H : ∀ c, MAX_COL c = 2 ∧ Forall (λ p, type p.2 = 0 ∨ type p.2 = 1) (plots c) →
                   MAX_COL (presses ks c) = 2 ∧
                   Forall (λ p, type p.2 = 0 ∨ type p.2 = 1) (plots (presses ks c))).
  { induction ks as [|k ks IH]; intros c Hc; [done|].
    apply IH. by apply new_plot_known_style. }
  apply H. split; [done|constructor].
Qed.

(** X14: a press with a file chosen, the title accepted and any answer
    but "Yes" to the paired question, on a table of n >= 1 columns with
    pairwise distinct labels, returns and adds a region titled as typed
    with n-1 series, one for each column after the first in order: the
    cells of the first column against the cells of that column, under the
    two names joined by " vs ", as lines when the style answer is
    "Straight Line" and as scatters for any other answer.  The legend
    lists the labels that are not hidden by a leading underscore. *)
Theorem press_unpaired_draws (c : MplCanvas) (file : string) (df rest : DataFrame)
    x_col (x : list Z) (t pa ta : string * bool) :
  0 < MAX_COL c →
  file ≠ "" → t.2 = true → pa.1 ≠ "Yes" →
  df = (x_col, x) :: rest →
  NoDup (columns df) →
  ∃ c' a,
    new_plot file df t pa ta c = (Ok tt, c') ∧
    fig_axes c' !! length (fig_axes c) = Some a ∧
    title a = t.1 ∧
    artists a
      = map (λ col, mkArtist (if bool_decide (ta.1 = "Straight Line")
                              then LinePlot else ScatterPlot)
                             [x] [col.2] (x_col +:+ " vs " +:+ col.1)) rest ∧
    legend a = Some (List.filter in_legend (map label (artists a))).
Proof.
  intros HM Hfile Hok Hpa -> Hnd. unfold new_plot, parse_data.
  rewrite bool_decide_eq_false_2 by done. rewrite Hok. cbn [negb].
  rewrite (bool_decide_eq_false_2 (pa.1 = "Yes")) by done.
  rewrite add_plot_cases by done. cbn [renderable length Nat.eqb negb].
  eexists _, _. split; [reflexivity|]. cbn [fig_axes]. split.
  - rewrite <- (length_next_axes c). apply lookup_snoc_length.
  - cbn [formatted title legend artists add_artists new_axes rendered columns map fst
         app].
    split; [done|].
    replace (map (λ y, (x_col, y)) (map fst rest))
      with (map (λ p : (string * list Z) * (string * list Z), (p.1.1, p.2.1))
                (map (λ col, ((x_col, x), col)) rest))
      by (by rewrite !map_map).
    rewrite (series_of_distinct ((x_col, x) :: rest)); [|done| |].
    + rewrite map_map. cbn [fst snd]. split; [|done].
      apply map_ext. intros col. by destruct (bool_decide (ta.1 = "Straight Line")).
    + intros p [col [-> Hc]]%list_elem_of_fmap. split; [left|by right].
    + destruct (bool_decide (ta.1 = "Straight Line")); [by left|by right].
Qed.

Lemma press_unpaired_draws_csv :
  ∃ c' a,
    new_plot "data.csv" [("A", [1; 2]); ("B", [3; 4]); ("C", [5; 6])]
             ("growth", true) ("No", false) ("Scatter", true) init = (Ok tt, c') ∧
    fig_axes c' !! 0%nat = Some a ∧
    title a = "growth" ∧
    artists a = [mkArtist ScatterPlot [[1; 2]] [[3; 4]] "A vs B";
                 mkArtist ScatterPlot [[1; 2]] [[5; 6]] "A vs C"] ∧
    legend a = Some (List.filter in_legend (map label (artists a))).
Proof.
  apply (press_unpaired_draws init "data.csv"
           [("A", [1; 2]); ("B", [3; 4]); ("C", [5; 6])]
           [("B", [3; 4]); ("C", [5; 6])] "A" [1; 2]
           ("growth", true) ("No", false) ("Scatter", true));
    [reflexivity|discriminate|reflexivity|discriminate|reflexivity|compute_done].
Defined.
